(** * A relay in front of an Invidious instance: the data-shaping contract

    Shallow embedding of [src/index.js].  The file holds two revisions of
    the same Express application:

    - revision A (lines 1-214): the instance origin is a literal and
      [/api/search] calls the JSON search API of the instance;
    - revision B (lines 215-399): the instance origin is read from the
      environment and [/api/search] scrapes the HTML result page.

    The helpers [getText], [getAttr], [getAbsoluteUrl] and the handlers of
    [/api/popular], [/api/video/:videoId], [/api/comments/:videoId] and
    [/health] are textually the same in both revisions.  Revision A
    declares [getAbsoluteUrl] twice, with one body, so its text does not
    load: its functions are modelled as written, and the application that
    runs is revision B.  A handler is a computation that may throw and
    that logs its outbound requests; what it writes to the console is left
    out. *)

From Stdlib Require Import String Ascii List ZArith Bool Lia.
Import ListNotations.
Local Open Scope list_scope.
Local Open Scope string_scope.
Local Set Warnings "-register-all".

(** ** JavaScript values and the string methods the program calls *)

Module Js.

(** A number, as far as the program can tell one from another: whether it
    is falsy (0, -0 or NaN) and the text [String(n)] gives for it, such as
    1200, 0.5 or 1e+21.  The program does no arithmetic. *)
Record number : Type := Number {
  num_falsy : bool;
  num_text : string
}.

(** The values that flow through the program: what [JSON.parse] builds,
    plus [undefined].  A string is its UTF-8 text; an object is the list of
    its own members in source order. *)
Inductive value : Type :=
| JUndef : value
| JNull : value
| JBool : bool -> value
| JNum : number -> value
| JStr : string -> value
| JArr : list value -> value
| JObj : list (string * value) -> value.

(** What a [throw] carries.  [AxiosError] holds the HTTP status when the
    upstream answered at all; [SyntaxError] is raised when a file is
    parsed, before any of it runs. *)
Inductive exn : Type :=
| TypeError : string -> exn
| AxiosError : option Z -> exn
| ParseError : exn
| SyntaxError : string -> exn.

Inductive result (A : Type) : Type :=
| Ok : A -> result A
| Throw : exn -> result A.
Arguments Ok {A} _.
Arguments Throw {A} _.

(** Sequencing of computations that may throw. *)
Definition rbind {A B} (c : result A) (k : A -> result B) : result B :=
  match c with
  | Ok a => k a
  | Throw e => Throw e
  end.

Notation "'let*' x ':=' c 'in' k" := (rbind c (fun x => k))
  (at level 10, x name, c at level 100, k at level 200).

(** [!v] is [negb (truthy v)]. *)
Definition truthy (v : value) : bool :=
  match v with
  | JUndef | JNull => false
  | JBool b => b
  | JNum n => negb (num_falsy n)
  | JStr s => negb (s =? "")
  | JArr _ | JObj _ => true
  end.

(** [a || b] *)
Definition or_else (a b : value) : value := if truthy a then a else b.

(** [s.startsWith(p)] *)
Fixpoint startsWith (s p : string) {struct p} : bool :=
  match p with
  | EmptyString => true
  | String c p' =>
      match s with
      | EmptyString => false
      | String d s' => Ascii.eqb c d && startsWith s' p'
      end
  end.

(** [s.includes(p)] *)
Fixpoint includes (s p : string) : bool :=
  startsWith s p ||
  match s with
  | EmptyString => false
  | String _ s' => includes s' p
  end.

(** Drop the first [n] characters. *)
Fixpoint drop (n : nat) (s : string) : string :=
  match n, s with
  | O, _ => s
  | S n', String _ s' => drop n' s'
  | S _, EmptyString => EmptyString
  end.

(** [s.replace(p, r)] with a string pattern: the first occurrence only. *)
Fixpoint replace (s p r : string) : string :=
  if startsWith s p then r ++ drop (String.length p) s
  else match s with
       | EmptyString => EmptyString
       | String c s' => String c (replace s' p r)
       end.

(** The one-byte white space and line terminators: tab, line feed,
    vertical tab, form feed, carriage return, space. *)
Definition is_space (c : ascii) : bool :=
  let n := nat_of_ascii c in
  (((9 <=? n) && (n <=? 13)) || (n =? 32))%nat.

(** [white_space w]: [w] is the UTF-8 text of one code point that [trim]
    strips, that is a WhiteSpace or LineTerminator of ECMAScript: the six
    above, U+00A0, U+1680, U+2000 to U+200A, U+2028, U+2029, U+202F,
    U+205F, U+3000 and U+FEFF. *)
Definition white_space (w : string) : bool :=
  match w with
  | String c EmptyString => is_space c
  | String c1 (String c2 EmptyString) =>
      ((nat_of_ascii c1 =? 194) && (nat_of_ascii c2 =? 160))%nat
  | String c1 (String c2 (String c3 EmptyString)) =>
      let n1 := nat_of_ascii c1 in
      let n2 := nat_of_ascii c2 in
      let n3 := nat_of_ascii c3 in
      (((n1 =? 225) && (n2 =? 154) && (n3 =? 128))
       || ((n1 =? 226) && (n2 =? 128)
           && (((128 <=? n3) && (n3 <=? 138)) || (n3 =? 168) || (n3 =? 169)
               || (n3 =? 175)))
       || ((n1 =? 226) && (n2 =? 129) && (n3 =? 159))
       || ((n1 =? 227) && (n2 =? 128) && (n3 =? 128))
       || ((n1 =? 239) && (n2 =? 187) && (n3 =? 191)))%nat
  | _ => false
  end.

(** What follows one leading white space code point, if there is one. *)
Definition strip_ws (s : string) : option string :=
  match s with
  | EmptyString => None
  | String c1 r1 =>
      if white_space (String c1 "") then Some r1
      else
        match r1 with
        | EmptyString => None
        | String c2 r2 =>
            if white_space (String c1 (String c2 "")) then Some r2
            else
              match r2 with
              | EmptyString => None
              | String c3 r3 =>
                  if white_space (String c1 (String c2 (String c3 "")))
                  then Some r3 else None
              end
        end
  end.

(** [s.trimStart()]; every step removes at least one byte, so
    [String.length s] steps are enough. *)
Fixpoint trimStart_steps (fuel : nat) (s : string) : string :=
  match fuel with
  | O => s
  | S fuel' =>
      match strip_ws s with
      | Some rest => trimStart_steps fuel' rest
      | None => s
      end
  end.

Definition trimStart (s : string) : string :=
  trimStart_steps (String.length s) s.

(** [s.trimEnd()]: once the tail is trimmed, only a head that is a white
    space code point by itself can still be stripped. *)
Fixpoint trimEnd (s : string) : string :=
  match s with
  | EmptyString => EmptyString
  | String c s' =>
      let t := String c (trimEnd s') in
      if white_space t then EmptyString else t
  end.

(** [s.trim()] *)
Definition trim (s : string) : string := trimEnd (trimStart s).

(** [s.split(sep)] for a non-empty separator; [fuel] bounds the scan and
    [String.length s] is always enough. *)
Fixpoint split_aux (fuel : nat) (sep cur s : string) : list string :=
  match fuel with
  | O => [cur ++ s]
  | S fuel' =>
      match s with
      | EmptyString => [cur]
      | String c s' =>
          if startsWith s sep
          then cur :: split_aux fuel' sep "" (drop (String.length sep) s)
          else split_aux fuel' sep (cur ++ String c "") s'
      end
  end.

Definition split (s sep : string) : list string :=
  split_aux (S (String.length s)) sep "" s.

(** [arr.join(sep)] once the elements are strings. *)
Fixpoint join (sep : string) (l : list string) : string :=
  match l with
  | [] => ""
  | [x] => x
  | x :: rest => x ++ sep ++ join sep rest
  end.

(** Whether an object has an own member of that name. *)
Definition has_own (k : string) (kvs : list (string * value)) : bool :=
  existsb (fun kv => fst kv =? k) kvs.

(** [String(v)], the conversion a template literal applies.  An array
    prints its elements between commas, [null] and [undefined] as the
    empty string.  An object prints through [Object.prototype.toString]
    unless an own member named [toString] hides it: that member is data,
    not a function, [valueOf] gives no primitive either, and the
    conversion throws. *)
Fixpoint toString (v : value) : result string :=
  match v with
  | JUndef => Ok "undefined"
  | JNull => Ok "null"
  | JBool true => Ok "true"
  | JBool false => Ok "false"
  | JNum n => Ok (num_text n)
  | JStr s => Ok s
  | JArr l =>
      let* parts :=
        (fix elements (l : list value) : result (list string) :=
           match l with
           | [] => Ok []
           | x :: rest =>
               let* p := match x with
                         | JUndef | JNull => Ok ""
                         | _ => toString x
                         end in
               let* ps := elements rest in
               Ok (p :: ps)
           end) l in
      Ok (join "," parts)
  | JObj kvs =>
      if has_own "toString" kvs
      then Throw (TypeError "Cannot convert object to primitive value")
      else Ok "[object Object]"
  end.

(** Member lookup in the member list of an object: [JSON.parse] lets a later
    duplicate key overwrite an earlier one, so the last member wins. *)
Definition lookup (k : string) (kvs : list (string * value)) : value :=
  match find (fun kv => fst kv =? k) (rev kvs) with
  | Some (_, v) => v
  | None => JUndef
  end.

(** [v.k] for a key that no prototype defines.  Reading a member of
    [null] or [undefined] throws; a primitive or an array has no such
    member. *)
Definition get (v : value) (k : string) : result value :=
  match v with
  | JUndef | JNull => Throw (TypeError "cannot read properties of null or undefined")
  | JObj kvs => Ok (lookup k kvs)
  | _ => Ok JUndef
  end.

(** [v?.[0]] *)
Definition opt_index0 (v : value) : value :=
  match v with
  | JArr (x :: _) => x
  | JStr (String c _) => JStr (String c "")
  | JObj kvs => lookup "0" kvs
  | _ => JUndef
  end.

(** [v?.k] *)
Definition opt_get (v : value) (k : string) : value :=
  match v with
  | JObj kvs => lookup k kvs
  | _ => JUndef
  end.

(** Percent-encoding of [encodeURIComponent] over the bytes of the UTF-8
    text: the unreserved marks, digits and letters stand for themselves. *)
Definition unreserved (c : ascii) : bool :=
  let n := nat_of_ascii c in
  ((48 <=? n)%nat && (n <=? 57)%nat) || ((65 <=? n)%nat && (n <=? 90)%nat) ||
  ((97 <=? n)%nat && (n <=? 122)%nat) ||
  existsb (Nat.eqb n) [45; 95; 46; 33; 126; 42; 39; 40; 41].

Definition hex (n : nat) : ascii :=
  if (n <? 10)%nat then ascii_of_nat (48 + n) else ascii_of_nat (55 + n).

Fixpoint encodeURIComponent (s : string) : string :=
  match s with
  | EmptyString => EmptyString
  | String c s' =>
      let n := nat_of_ascii c in
      if unreserved c then String c (encodeURIComponent s')
      else String "%" (String (hex (n / 16)) (String (hex (n mod 16))
             (encodeURIComponent s')))
  end.

End Js.
Import Js.

(** ** The part of cheerio the program touches *)

Module Cheerio.

(** An element as the program can observe it: its attributes, its text
    content and, for each selector, the descendants that match it. *)
Inductive node : Type :=
| Node (attribs : list (string * string)) (text : string)
       (descendants : string -> list node).

Definition node_attribs (n : node) := let (a, _, _) := n in a.
Definition node_text (n : node) := let (_, t, _) := n in t.
Definition node_find (n : node) (q : string) := let (_, _, f) := n in f q.

(** A selection (a Cheerio object) is an ordered set of elements. *)
Definition selection := list node.

(** A loaded document, seen through its root query [$(selector)]. *)
Definition document := string -> selection.

(** The first argument of a query. *)
Inductive selector : Type :=
| SelStr : string -> selector
| SelNode : node -> selector
| SelUndef : selector.

(** [$(x)] for the function [$] that [cheerio.load] returns. *)
Definition select (doc : document) (x : selector) : selection :=
  match x with
  | SelStr q => doc q
  | SelNode n => [n]
  | SelUndef => []
  end.

(** What a helper may receive as its parameter [$]: the query function of a
    loaded document, or a selection.  A selection is an object but not a
    function. *)
Inductive callee : Type :=
| Api : document -> callee
| Sel : selection -> callee.

(** The call expression [$(x)]. *)
Definition call (f : callee) (x : selector) : result selection :=
  match f with
  | Api doc => Ok (select doc x)
  | Sel _ => Throw (TypeError "$ is not a function")
  end.

(** [sel.find(q)]; every use in the program starts from one element. *)
Definition find (sel : selection) (q : string) : selection :=
  flat_map (fun n => node_find n q) sel.

(** [sel.text()]: the texts of the elements, concatenated. *)
Definition text (sel : selection) : string :=
  fold_right (fun n acc => node_text n ++ acc) "" sel.

(** [sel.attr(name)] reads the first element; without a name it returns
    the attribute map itself. *)
Definition attr (sel : selection) (name : option string) : value :=
  match sel with
  | [] => JUndef
  | n :: _ =>
      match name with
      | Some k =>
          match List.find (fun kv => fst kv =? k) (node_attribs n) with
          | Some (_, v) => JStr v
          | None => JUndef
          end
      | None => JObj (map (fun kv => (fst kv, JStr (snd kv))) (node_attribs n))
      end
  end.

(** [sel.each(cb)] where [cb] pushes onto an array it closes over: the
    array is threaded through, and a throw in [cb] ends the loop. *)
Fixpoint each {A} (sel : selection) (cb : node -> A -> result A) (acc : A)
  : result A :=
  match sel with
  | [] => Ok acc
  | n :: rest => let* acc' := cb n acc in each rest cb acc'
  end.

End Cheerio.
Import Cheerio.

(** ** Requests, responses and the handler monad *)

Module Http.

(** [req.query.q] is what the query-string parser left: [undefined], a
    string, an array ([q=a&q=b]) or an object ([q[k]=v]), whose members the
    extended parser takes from the request, a member named [toString]
    included.  [req.params.videoId] is a string. *)
Record request : Type := Request {
  query_q : value;
  params_videoId : string
}.

Record VideoSummary : Type := {
  title : value;
  videoId : value;
  thumbnail : value;
  author : value;
  views : value;
  uploadedAt : value;
  url : value
}.

Record Format : Type := {
  format : string;
  format_url : value
}.

Record VideoDetail : Type := {
  detail_title : value;
  detail_author : value;
  detail_views : value;
  detail_uploadedAt : value;
  description : value;
  formats : list Format;
  invidiousWatchUrl : string
}.

Record Comment : Type := {
  comment_author : value;
  comment_text : value;
  comment_time : value;
  likes : value
}.

(** What [res.json] or [res.send] is given. *)
Inductive payload : Type :=
| PSummaries : list VideoSummary -> payload
| PDetail : VideoDetail -> payload
| PComments : list Comment -> payload
| PError : string -> payload
| PText : string -> payload.

Record response : Type := Response {
  status : Z;
  body : payload
}.

(** A handler runs against the log of outbound requests issued so far and
    may throw. *)
Definition M (A : Type) : Type := list string -> result A * list string.

Definition ret {A} (a : A) : M A := fun log => (Ok a, log).

Definition bind {A B} (c : M A) (k : A -> M B) : M B :=
  fun log =>
    match c log with
    | (Ok a, log') => k a log'
    | (Throw e, log') => (Throw e, log')
    end.

Definition lift {A} (r : result A) : M A := fun log => (r, log).

(** [try { body } catch (error) { handler }] *)
Definition try_catch {A} (body : M A) (handler : exn -> M A) : M A :=
  fun log =>
    match body log with
    | (Ok a, log') => (Ok a, log')
    | (Throw e, log') => handler e log'
    end.

(** [res.json(x)] answers with the default status. *)
Definition res_json (x : payload) : M response := ret (Response 200 x).

(** [res.status(code).json(x)] and [res.status(code).send(x)] *)
Definition res_status (code : Z) (x : payload) : M response :=
  ret (Response code x).

End Http.
Import Http.

Notation "x <- c ;; k" := (bind c (fun x => k))
  (at level 61, c at next level, right associativity).

(** ** Configuration (lines 8-10 and 222-224) *)

(** [process.env] once dotenv has run: a variable is a string or unset. *)
Definition env := string -> option string.

Definition env_get (e : env) (k : string) : value :=
  match e k with
  | Some s => JStr s
  | None => JUndef
  end.

(** [const PORT = process.env.PORT || 3000], the same in both revisions. *)
Definition PORT (e : env) : value :=
  or_else (env_get e "PORT") (JNum (Number false "3000")).

Module RevA.

(** Line 10: [const INVIDIOUS_INSTANCE = 'https://lekker.gay'].  The
    comment on line 9 says the default can be overridden through an
    environment variable; the declaration reads none. *)
Definition INVIDIOUS_INSTANCE (e : env) : string := "https://lekker.gay".

End RevA.

Module RevB.

(** Line 224:
    [process.env.INVIDIOUS_INSTANCE || 'https://lekker.gay']; both operands
    are strings. *)
Definition INVIDIOUS_INSTANCE (e : env) : string :=
  match or_else (env_get e "INVIDIOUS_INSTANCE") (JStr "https://lekker.gay") with
  | JStr s => s
  | _ => "https://lekker.gay"
  end.

End RevB.

(** ** The upstream *)

(** What one outbound GET meets: no answer at all, or a final status with
    the body as axios decodes it (a string, or the parsed JSON). *)
Inductive reply : Type :=
| NoReply : reply
| Reply (status : Z) (data : value) : reply.

Definition dq : string := String (ascii_of_nat 34) "".

(** ** Helpers and handlers *)

Section Relay.

Variable INVIDIOUS_INSTANCE : string.

(** The upstream instance, by URL. *)
Variable upstream : string -> reply.

(** [cheerio.load]: the HTML parser and selector engine. *)
Variable cheerio_load : value -> result document.

(** [v.toLocaleString()], which depends on the locale of the host. *)
Variable toLocaleString : value -> result string.

(** [await axios.get(url)] yields [data]; it rejects when there is no
    answer or the status is outside 200..299. *)
Definition axios_get (url : string) : M value :=
  fun log =>
    (match upstream url with
     | NoReply => Throw (AxiosError None)
     | Reply st data =>
         if ((200 <=? st) && (st <? 300))%Z then Ok data
         else Throw (AxiosError (Some st))
     end, (log ++ [url])%list).

(** Lines 19-22 and 233-236.  The parameter the source calls [$] is
    [dollar] here and below. *)
Definition getText (dollar : callee) (selector : selector) : result value :=
  let* element := call dollar selector in
  Ok (if negb (length element =? 0)%nat then JStr (trim (text element))
      else JNull).

(** Lines 25-28 and 239-242. *)
Definition getAttr (dollar : callee) (selector : selector) (attr : option string)
  : result value :=
  let* element := call dollar selector in
  Ok (if negb (length element =? 0)%nat then Cheerio.attr element attr
      else JNull).

(** Lines 31-38, 74-80 and 245-252.  A truthy [path] that is not a string
    has no [startsWith] to call. *)
Definition getAbsoluteUrl (path : value) : result value :=
  if negb (truthy path) then Ok JNull
  else
    match path with
    | JStr p =>
        if startsWith p "http://" || startsWith p "https://" then Ok (JStr p)
        else Ok (JStr (INVIDIOUS_INSTANCE
                       ++ (if startsWith p "/" then "" else "/") ++ p))
    | _ => Throw (TypeError "path.startsWith is not a function")
    end.

(** [x?.split('v=')[1]] *)
Definition split_v1 (x : value) : result value :=
  match x with
  | JUndef | JNull => Ok JUndef
  | JStr s => Ok (nth 1 (map JStr (split s "v=")) JUndef)
  | _ => Throw (TypeError "split is not a function")
  end.

(** The callback of lines 50-63, 264-277 and 298-311.  Each helper is
    called with a selection as its first argument. *)
Definition listing_item (dollar : document) (element : node)
    (acc : list VideoSummary) : result (list VideoSummary) :=
  let el := select dollar (SelNode element) in
  let* href := getAttr (Sel (find el "h3 a")) (SelStr "href") None in
  let* videoId := split_v1 href in
  if negb (truthy videoId) then Ok acc
  else
    let* title := getText (Sel (find el "h3 a")) SelUndef in
    let* thumbnail := getAttr (Sel (find el "img")) (SelStr "src") None in
    let* author := getText (Sel (find el ".channel-name")) SelUndef in
    let* views :=
      getText (Sel (find el (".stat:contains(" ++ dq ++ "views" ++ dq ++ ")")))
              SelUndef in
    let* uploadedAt :=
      getText (Sel (find el (".stat:contains(" ++ dq ++ "ago" ++ dq ++ ")")))
              SelUndef in
    let* href' := getAttr (Sel (find el "h3 a")) (SelStr "href") None in
    let* url := getAbsoluteUrl href' in
    Ok (acc ++ [Build_VideoSummary title videoId thumbnail author views
                                   uploadedAt url])%list.

Definition listing_source (dollar : document) : selection :=
  select dollar (SelStr ".pure-g.loop > .pure-u-1").

(** [/api/popular], lines 43-69 and 257-283. *)
Definition popular_try : M payload :=
  let url := INVIDIOUS_INSTANCE ++ "/feed/popular" in
  data <- axios_get url ;;
  dollar <- lift (cheerio_load data) ;;
  popularVideos <- lift (each (listing_source dollar) (listing_item dollar) []) ;;
  ret (PSummaries popularVideos).

Definition popular (req : request) : M response :=
  try_catch (x <- popular_try ;; res_json x)
    (fun error => res_status 500 (PError "Failed to fetch popular videos")).

(** The [400] answer shared by the search handlers. *)
Definition q_required : string :=
  "Query parameter " ++ dq ++ "q" ++ dq ++ " is required.".

(** [/api/search] of revision B, lines 286-317. *)
Definition search_html_from (printed : string) : M payload :=
  let url := INVIDIOUS_INSTANCE ++ "/search?q=" ++ encodeURIComponent printed in
  data <- axios_get url ;;
  dollar <- lift (cheerio_load data) ;;
  searchResults <- lift (each (listing_source dollar) (listing_item dollar) []) ;;
  ret (PSummaries searchResults).

(** [encodeURIComponent(q)] prints [q] first, inside the [try] block. *)
Definition search_html_try (q : value) : M payload :=
  printed <- lift (toString q) ;;
  search_html_from printed.

Definition search_html (req : request) : M response :=
  let q := query_q req in
  if negb (truthy q) then res_status 400 (PError q_required)
  else
    try_catch (x <- search_html_try q ;; res_json x)
      (fun error => res_status 500 (PError "Failed to fetch search results")).

(** [item.type === 'video'] *)
Definition is_video (ty : value) : bool :=
  match ty with
  | JStr s => s =? "video"
  | _ => false
  end.

(** The arrow function given to [data.map], lines 101-117: [None] stands
    for its [null]. *)
Definition search_item (item : value) : result (option VideoSummary) :=
  let* ty := get item "type" in
  if is_video ty then
    let* title := get item "title" in
    let* videoId := get item "videoId" in
    let* videoThumbnails := get item "videoThumbnails" in
    let* item_thumbnail := get item "thumbnail" in
    let* thumbnail :=
      getAbsoluteUrl
        (or_else (opt_get (opt_index0 videoThumbnails) "url") item_thumbnail) in
    let* author := get item "author" in
    let* viewCount := get item "viewCount" in
    let* views :=
      if truthy viewCount
      then let* n := toLocaleString viewCount in Ok (JStr (n ++ " views"))
      else Ok JNull in
    let* uploadedAt := get item "publishedText" in
    let* videoId' := get item "videoId" in
    let* printed := toString videoId' in
    let* url := getAbsoluteUrl (JStr ("/watch?v=" ++ printed)) in
    Ok (Some (Build_VideoSummary title videoId thumbnail author views
                                 uploadedAt url))
  else Ok None.

(** [array.map(f)] for an [f] that may throw. *)
Fixpoint map_result {A B} (f : A -> result B) (l : list A) : result (list B) :=
  match l with
  | [] => Ok []
  | x :: rest =>
      let* y := f x in
      let* ys := map_result f rest in
      Ok (y :: ys)
  end.

(** [.filter(item => item !== null)] *)
Fixpoint filter_non_null {A} (l : list (option A)) : list A :=
  match l with
  | [] => []
  | Some x :: rest => x :: filter_non_null rest
  | None :: rest => filter_non_null rest
  end.

(** [data.map(...).filter(...)], lines 101-117. *)
Definition searchResults (data : value) : result (list VideoSummary) :=
  match data with
  | JArr items =>
      let* mapped := map_result search_item items in
      Ok (filter_non_null mapped)
  | _ => Throw (TypeError "data.map is not a function")
  end.

(** [/api/search] of revision A, lines 84-130. *)
Definition search_api_from (printed : string) : M payload :=
  let invidiousApiUrl :=
    INVIDIOUS_INSTANCE ++ "/api/v1/search?q=" ++ encodeURIComponent printed in
  data <- axios_get invidiousApiUrl ;;
  results <- lift (searchResults data) ;;
  ret (PSummaries results).

Definition search_api_try (q : value) : M payload :=
  printed <- lift (toString q) ;;
  search_api_from printed.

Definition search_api (req : request) : M response :=
  let q := query_q req in
  if negb (truthy q) then res_status 400 (PError q_required)
  else
    try_catch (x <- search_api_try q ;; res_json x)
      (fun error =>
         res_status 500
           (PError "Failed to fetch search results from Invidious API")).

(** The test [href && text && text.includes('Download')] of lines 151
    and 336. *)
Definition is_download (href text : value) : result bool :=
  if truthy href && truthy text then
    match text with
    | JStr t => Ok (includes t "Download")
    | _ => Throw (TypeError "text.includes is not a function")
    end
  else Ok false.

(** The callback of lines 148-158 and 333-343. *)
Definition format_item (dollar : document) (element : node)
    (acc : list Format) : result (list Format) :=
  let* href := getAttr (Sel (select dollar (SelNode element))) (SelStr "href") None in
  let* text := getText (Sel (select dollar (SelNode element))) SelUndef in
  let* keep := is_download href text in
  if keep then
    let* formatInfo :=
      match text with
      | JStr t => Ok (replace t "Download " "")
      | _ => Throw (TypeError "text.replace is not a function")
      end in
    let* url := getAbsoluteUrl href in
    Ok (acc ++ [Build_Format formatInfo url])%list
  else Ok acc.

(** [/api/video/:videoId], lines 135-175 and 320-360. *)
Definition video_try (videoId : string) : M payload :=
  let url := INVIDIOUS_INSTANCE ++ "/watch?v=" ++ encodeURIComponent videoId in
  data <- axios_get url ;;
  dollar <- lift (cheerio_load data) ;;
  formats <- lift (each (select dollar (SelStr "a.pure-button.pure-button-primary"))
                        (format_item dollar) []) ;;
  title <- lift (getText (Sel (select dollar (SelStr ".video-title"))) SelUndef) ;;
  author <- lift (getText (Sel (select dollar (SelStr ".channel-name"))) SelUndef) ;;
  views <- lift (getText (Sel (select dollar
             (SelStr (".stat:contains(" ++ dq ++ "views" ++ dq ++ ")")))) SelUndef) ;;
  uploadedAt <- lift (getText (Sel (select dollar
             (SelStr (".stat:contains(" ++ dq ++ "ago" ++ dq ++ ")")))) SelUndef) ;;
  description <- lift (getText (Sel (select dollar (SelStr "#description"))) SelUndef) ;;
  ret (PDetail (Build_VideoDetail title author views uploadedAt description
                                  formats url)).

Definition video (req : request) : M response :=
  let videoId := params_videoId req in
  if negb (truthy (JStr videoId)) then res_status 400 (PError "Video ID is required.")
  else
    try_catch (x <- video_try videoId ;; res_json x)
      (fun error => res_status 500 (PError "Failed to fetch video information")).

(** The callback of lines 190-197 and 375-382. *)
Definition comment_item (dollar : document) (element : node)
    (acc : list Comment) : result (list Comment) :=
  let el := select dollar (SelNode element) in
  let* author := getText (Sel (find el ".comment-author")) SelUndef in
  let* text := getText (Sel (find el ".comment-content")) SelUndef in
  let* time := getText (Sel (find el ".comment-header .time")) SelUndef in
  let* likes := getText (Sel (find el ".comment-header .likes")) SelUndef in
  Ok (acc ++ [Build_Comment author text time likes])%list.

Definition comments_source (dollar : document) : selection :=
  select dollar (SelStr ".comment-wrapper").

(** [/api/comments/:videoId], lines 178-203 and 363-388. *)
Definition comments_try (videoId : string) : M payload :=
  let url := INVIDIOUS_INSTANCE ++ "/comments/" ++ encodeURIComponent videoId in
  data <- axios_get url ;;
  dollar <- lift (cheerio_load data) ;;
  comments <- lift (each (comments_source dollar) (comment_item dollar) []) ;;
  ret (PComments comments).

Definition comments (req : request) : M response :=
  let videoId := params_videoId req in
  if negb (truthy (JStr videoId)) then res_status 400 (PError "Video ID is required.")
  else
    try_catch (x <- comments_try videoId ;; res_json x)
      (fun error => res_status 500 (PError "Failed to fetch comments")).

(** [/health], lines 206-208 and 391-393. *)
Definition health (req : request) : M response :=
  res_status 200 (PText "OK").

(** The routes the application registers. *)
Inductive route : Type :=
| ApiPopular | ApiSearch | ApiVideo | ApiComments | Health.

Inductive revision : Type := A | B.

Definition handler (rev : revision) (r : route) : request -> M response :=
  match r with
  | ApiPopular => popular
  | ApiSearch => match rev with A => search_api | B => search_html end
  | ApiVideo => video
  | ApiComments => comments
  | Health => health
  end.

(** The [try] block of a route from its upstream request on, when the
    handler gets that far: the request passed the parameter check and, for
    the search, [q] could be printed. *)
Definition attempt (rev : revision) (r : route) (req : request)
  : option (M payload) :=
  match r with
  | ApiPopular => Some popular_try
  | ApiSearch =>
      if truthy (query_q req)
      then match toString (query_q req) with
           | Ok printed => Some (match rev with
                                 | A => search_api_from printed
                                 | B => search_html_from printed
                                 end)
           | Throw _ => None
           end
      else None
  | ApiVideo =>
      if truthy (JStr (params_videoId req))
      then Some (video_try (params_videoId req)) else None
  | ApiComments =>
      if truthy (JStr (params_videoId req))
      then Some (comments_try (params_videoId req)) else None
  | Health => None
  end.

(** The message of the [catch] block of a route. *)
Definition failure_message (rev : revision) (r : route) : string :=
  match r with
  | ApiPopular => "Failed to fetch popular videos"
  | ApiSearch =>
      match rev with
      | A => "Failed to fetch search results from Invidious API"
      | B => "Failed to fetch search results"
      end
  | ApiVideo => "Failed to fetch video information"
  | ApiComments => "Failed to fetch comments"
  | Health => ""
  end.

(** The data of a reply that [axios.get] resolves with. *)
Definition accepted (r : reply) : option value :=
  match r with
  | NoReply => None
  | Reply st data => if ((200 <=? st) && (st <? 300))%Z then Some data else None
  end.

(** The text of [q] in the URL; a [q] that does not print is never sent. *)
Definition query_text (q : value) : string :=
  match toString q with
  | Ok printed => printed
  | Throw _ => ""
  end.

(** The URL a route asks the instance for. *)
Definition target (rev : revision) (r : route) (req : request) : string :=
  match r with
  | ApiPopular => INVIDIOUS_INSTANCE ++ "/feed/popular"
  | ApiSearch =>
      match rev with
      | A => INVIDIOUS_INSTANCE ++ "/api/v1/search?q="
             ++ encodeURIComponent (query_text (query_q req))
      | B => INVIDIOUS_INSTANCE ++ "/search?q=" ++ encodeURIComponent (query_text (query_q req))
      end
  | ApiVideo => INVIDIOUS_INSTANCE ++ "/watch?v=" ++ encodeURIComponent (params_videoId req)
  | ApiComments => INVIDIOUS_INSTANCE ++ "/comments/" ++ encodeURIComponent (params_videoId req)
  | Health => ""
  end.

End Relay.

(** ** Loading and routing *)

(** Whether the text of a revision loads.  Revision A declares
    [const getAbsoluteUrl] at line 31 and again at line 74 of the same
    scope, which is rejected when the file is parsed: none of its
    statements runs and nothing listens. *)
Definition load_module (rev : revision) : result unit :=
  match rev with
  | A => Throw (SyntaxError
                  "Identifier 'getAbsoluteUrl' has already been declared")
  | B => Ok tt
  end.

(** The router matches [:videoId] against a non-empty path segment only:
    a request without one reaches no handler. *)
Definition routed (r : route) (req : request) : bool :=
  match r with
  | ApiVideo | ApiComments => negb (params_videoId req =? "")
  | ApiPopular | ApiSearch | Health => true
  end.

(** What a client gets for a request to one of the five paths: no server
    at all, the 404 of the router, the answer of the handler, or nothing
    because the handler threw. *)
Inductive outcome : Type :=
| NoServer : exn -> outcome
| NotFound : outcome
| Answered : response -> outcome
| Unhandled : exn -> outcome.

(** The application of a revision, started in an environment. *)
Definition express_app (rev : revision) (e : env) (upstream : string -> reply)
    (cheerio_load : value -> result document)
    (toLocaleString : value -> result string) (r : route) (req : request)
    (log : list string) : outcome * list string :=
  match load_module rev with
  | Throw x => (NoServer x, log)
  | Ok _ =>
      if routed r req then
        match handler (match rev with
                       | A => RevA.INVIDIOUS_INSTANCE e
                       | B => RevB.INVIDIOUS_INSTANCE e
                       end) upstream cheerio_load toLocaleString rev r req log
        with
        | (Ok resp, log') => (Answered resp, log')
        | (Throw x, log') => (Unhandled x, log')
        end
      else (NotFound, log)
  end.

(** ** Reading the claims: notions the statements below use *)

(** A URL scheme as RFC 3986 writes it: a letter, then letters, digits,
    [+], [-] or [.], then a colon. *)
Definition is_alpha (c : ascii) : bool :=
  let n := nat_of_ascii c in
  (((65 <=? n) && (n <=? 90)) || ((97 <=? n) && (n <=? 122)))%nat.

Definition is_scheme_char (c : ascii) : bool :=
  let n := nat_of_ascii c in
  (is_alpha c || ((48 <=? n) && (n <=? 57)) || (n =? 43) || (n =? 45)
   || (n =? 46))%nat.

Fixpoint scheme_tail (s : string) : bool :=
  match s with
  | EmptyString => false
  | String c s' =>
      if Ascii.eqb c ":" then true
      else is_scheme_char c && scheme_tail s'
  end.

Definition carries_scheme (s : string) : bool :=
  match s with
  | EmptyString => false
  | String c s' => is_alpha c && scheme_tail s'
  end.

(** The two prefixes the code itself tests for. *)
Definition is_http (p : string) : bool :=
  startsWith p "http://" || startsWith p "https://".

(** How many slashes a URL has right after the origin. *)
Fixpoint leading_slashes (s : string) : nat :=
  match s with
  | String c s' => if Ascii.eqb c "/" then S (leading_slashes s') else 0
  | EmptyString => 0
  end.

Definition boundary_slashes (origin url : string) : nat :=
  leading_slashes (drop (String.length origin) url).

(** An item of the search API as the mapping of lines 104-113 reads it. *)
Definition thumbnail_source (item : value) : value :=
  or_else (opt_get (opt_index0 (opt_get item "videoThumbnails")) "url")
          (opt_get item "thumbnail").

Definition is_video_item (item : value) : bool :=
  is_video (opt_get item "type").

Definition returns {X} (r : result X) : bool :=
  match r with
  | Ok _ => true
  | Throw _ => false
  end.

(** The items on which the mapping cannot throw: not [null], and when the
    type is [video] the thumbnail source is a string or falsy, the view
    count can be formatted and the videoId can be printed. *)
Definition item_ok (tls : value -> result string) (item : value) : bool :=
  match item with
  | JUndef | JNull => false
  | _ =>
      if is_video_item item then
        (match thumbnail_source item with
         | JStr _ => true
         | v => negb (truthy v)
         end)
        && (if truthy (opt_get item "viewCount")
            then returns (tls (opt_get item "viewCount"))
            else true)
        && returns (toString (opt_get item "videoId"))
      else true
  end.

(** The field-by-field correspondence between a source item and a
    [VideoSummary]. *)
Definition maps_to (origin : string) (tls : value -> result string)
    (item : value) (s : VideoSummary) : Prop :=
  title s = opt_get item "title"
  /\ videoId s = opt_get item "videoId"
  /\ getAbsoluteUrl origin (thumbnail_source item) = Ok (thumbnail s)
  /\ author s = opt_get item "author"
  /\ (if truthy (opt_get item "viewCount")
      then exists n, tls (opt_get item "viewCount") = Ok n
                     /\ views s = JStr (n ++ " views")
      else views s = JNull)
  /\ uploadedAt s = opt_get item "publishedText"
  /\ exists printed,
       toString (opt_get item "videoId") = Ok printed
       /\ url s = JStr (origin ++ "/watch?v=" ++ printed).

(** Whether a request passes the parameter check its handler starts
    with, and the message of the answer when it does not. *)
Definition passes_check (r : route) (req : request) : bool :=
  match r with
  | ApiSearch => truthy (query_q req)
  | ApiVideo | ApiComments => truthy (JStr (params_videoId req))
  | ApiPopular | Health => true
  end.

(** Whether the URL of the route can be built: [q] must print. *)
Definition prints (r : route) (req : request) : bool :=
  match r with
  | ApiSearch => returns (toString (query_q req))
  | _ => true
  end.

Definition check_message (r : route) : string :=
  match r with
  | ApiSearch => q_required
  | _ => "Video ID is required."
  end.

(** The routes whose extraction starts with [cheerio.load]. *)
Definition scraped_route (rev : revision) (r : route) : bool :=
  match r, rev with
  | ApiSearch, A | Health, _ => false
  | _, _ => true
  end.

(** What the extraction of a route makes of the data of a 2xx answer,
    read off the statements that follow [axios.get] in each [try]
    block. *)
Definition extraction (origin : string) (load : value -> result document)
    (tls : value -> result string) (rev : revision) (r : route)
    (req : request) (data : value) : result payload :=
  match r, rev with
  | ApiSearch, A =>
      let* found := searchResults origin tls data in
      Ok (PSummaries found)
  | ApiPopular, _ | ApiSearch, B =>
      let* d := load data in
      let* found := each (listing_source d) (listing_item origin d) [] in
      Ok (PSummaries found)
  | ApiVideo, _ =>
      let* d := load data in
      let* found :=
        each (select d (SelStr "a.pure-button.pure-button-primary"))
             (format_item origin d) [] in
      let* t := getText (Sel (select d (SelStr ".video-title"))) SelUndef in
      let* a := getText (Sel (select d (SelStr ".channel-name"))) SelUndef in
      let* v := getText (Sel (select d
                  (SelStr (".stat:contains(" ++ dq ++ "views" ++ dq ++ ")"))))
                  SelUndef in
      let* u := getText (Sel (select d
                  (SelStr (".stat:contains(" ++ dq ++ "ago" ++ dq ++ ")"))))
                  SelUndef in
      let* desc := getText (Sel (select d (SelStr "#description"))) SelUndef in
      Ok (PDetail (Build_VideoDetail t a v u desc found
                     (origin ++ "/watch?v="
                      ++ encodeURIComponent (params_videoId req))))
  | ApiComments, _ =>
      let* d := load data in
      let* found := each (comments_source d) (comment_item d) [] in
      Ok (PComments found)
  | Health, _ => Ok (PText "OK")
  end.

(** The answer the claims describe: 400 when the check fails; otherwise
    500 with the fixed message of the route when the URL cannot be built,
    the upstream gives no 2xx answer or the extraction throws, and 200
    with what the extraction returns. *)
Definition answer (origin : string) (upstream : string -> reply)
    (load : value -> result document) (tls : value -> result string)
    (rev : revision) (r : route) (req : request) : response :=
  match r with
  | Health => Response 200 (PText "OK")
  | _ =>
      if passes_check r req then
        if prints r req then
          match accepted (upstream (target origin rev r req)) with
          | None => Response 500 (PError (failure_message rev r))
          | Some data =>
              match extraction origin load tls rev r req data with
              | Ok v => Response 200 v
              | Throw _ => Response 500 (PError (failure_message rev r))
              end
          end
        else Response 500 (PError (failure_message rev r))
      else Response 400 (PError (check_message r))
  end.

(** ** Further notions for the properties of the helpers and handlers *)

Fixpoint last_char (s : string) : option ascii :=
  match s with
  | EmptyString => None
  | String c EmptyString => Some c
  | String _ s' => last_char s'
  end.

(** A text with no white space code point at either end. *)
Definition trimmed (s : string) : Prop :=
  (forall w rest, s = w ++ rest -> white_space w = false)
  /\ (forall front w, s = front ++ w -> white_space w = false).

Fixpoint all_chars (p : ascii -> bool) (s : string) : bool :=
  match s with
  | EmptyString => true
  | String c s' => p c && all_chars p s'
  end.

(** The characters a percent-encoded text is made of. *)
Definition url_safe (c : ascii) : bool := unreserved c || Ascii.eqb c "%".

(** The fixed path of a route on the instance and the caller's text that
    follows it. *)
Definition route_path (rev : revision) (r : route) : string :=
  match r with
  | ApiPopular => "/feed/popular"
  | ApiSearch => match rev with A => "/api/v1/search?q=" | B => "/search?q=" end
  | ApiVideo => "/watch?v="
  | ApiComments => "/comments/"
  | Health => ""
  end.

Definition route_param (r : route) (req : request) : option string :=
  match r with
  | ApiSearch => Some (query_text (query_q req))
  | ApiVideo | ApiComments => Some (params_videoId req)
  | ApiPopular | Health => None
  end.

(** The routes that scrape markup, with the selection they iterate over. *)
Definition scraped_items (rev : revision) (r : route) (d : document)
  : option selection :=
  match r, rev with
  | ApiPopular, _ | ApiSearch, B => Some (listing_source d)
  | ApiComments, _ => Some (comments_source d)
  | _, _ => None
  end.

Definition empty_list_payload (r : route) : payload :=
  match r with
  | ApiComments => PComments []
  | _ => PSummaries []
  end.

Definition is_error (p : payload) : bool :=
  match p with
  | PError _ => true
  | _ => false
  end.

Definition is_string (v : value) : bool :=
  match v with
  | JStr _ => true
  | _ => false
  end.

(** ** Sample inputs *)

Module Sample.

Definition no_env : env := fun _ => None.

(** An environment that names another instance. *)
Definition other_env : env :=
  fun k => if k =? "INVIDIOUS_INSTANCE" then Some "https://inv.example" else None.

(** A host whose [toLocaleString] prints numbers without grouping. *)
Definition plain_locale (v : value) : result string := toString v.

Definition lofi : request := Request (JStr "lofi") "".
Definition empty_q : request := Request (JStr "") "".
Definition known_id : request := Request JUndef "dQw4w9WgXcQ".

(** A search result of the JSON API: a video, a channel, and a video
    whose [videoId] is [null]. *)
Definition video_item : value :=
  JObj [("type", JStr "video"); ("title", JStr "lofi beats");
        ("videoId", JStr "abc"); ("author", JStr "dj");
        ("videoThumbnails", JArr [JObj [("url", JStr "/vi/abc/1.jpg")]]);
        ("viewCount", JNum (Number false "1200"));
        ("publishedText", JStr "3 weeks ago")].

Definition channel_item : value :=
  JObj [("type", JStr "channel"); ("author", JStr "dj")].

Definition anonymous_item : value :=
  JObj [("type", JStr "video"); ("title", JStr "untitled");
        ("videoId", JNull)].

Definition search_json (items : list value) : string -> reply :=
  fun _ => Reply 200 (JArr items).

(** A watch page with one download link and a title. *)
Definition download_link : node :=
  Node [("href", "/latest_version?id=dQw4w9WgXcQ&itag=22");
        ("class", "pure-button pure-button-primary")]
       "Download 720p" (fun _ => []).

Definition watch_page : document :=
  fun q =>
    if q =? "a.pure-button.pure-button-primary" then [download_link]
    else if q =? ".video-title" then [Node [] " Never Gonna " (fun _ => [])]
    else [].

Definition html (page : string) : string -> reply :=
  fun _ => Reply 200 (JStr page).

Definition parse (d : document) : value -> result document :=
  fun _ => Ok d.

End Sample.

(** A feed page with one item, whose link leads to a watch page. *)
Module Page.

Definition item_link : node :=
  Node [("href", "/watch?v=abc")] "lofi beats" (fun _ => []).

Definition item : node :=
  Node [("class", "pure-u-1")] "lofi beats"
       (fun q => if q =? "h3 a" then [item_link] else []).

Definition feed : document :=
  fun q => if q =? ".pure-g.loop > .pure-u-1" then [item] else [].

(** A second item whose link leads to a channel: its href has no [v=]. *)
Definition channel_link : node :=
  Node [("href", "/channel/UCabc")] "dj" (fun _ => []).

Definition channel : node :=
  Node [("class", "pure-u-1")] "dj"
       (fun q => if q =? "h3 a" then [channel_link] else []).

Definition mixed_feed : document :=
  fun q => if q =? ".pure-g.loop > .pure-u-1" then [item; channel] else [].

End Page.

(** ** Facts about strings *)

Lemma startsWith_app (a b : string) : startsWith (a ++ b) a = true.
Proof.
  induction a as [|c a IH]; simpl.
  - reflexivity.
  - now rewrite Ascii.eqb_refl, IH.
Qed.

Lemma drop_app (a b : string) : drop (String.length a) (a ++ b) = b.
Proof.
  induction a as [|c a IH]; simpl.
  - reflexivity.
  - exact IH.
Qed.

Lemma truthy_JStr (p : string) : truthy (JStr p) = true <-> p <> "".
Proof.
  simpl. destruct (String.eqb_spec p ""); simpl; split; intros; congruence.
Qed.

Lemma startsWith_char (c d : ascii) (s : string) :
  startsWith (String d s) (String c "") = Ascii.eqb c d.
Proof.
  cbn [startsWith]. apply andb_true_r.
Qed.

Lemma leading_slashes_none (p : string) :
  startsWith p "/" = false -> leading_slashes p = 0.
Proof.
  destruct p as [|d p]; [reflexivity |].
  rewrite startsWith_char. cbn [leading_slashes].
  rewrite Ascii.eqb_sym. now intros ->.
Qed.

Lemma leading_slashes_one (p : string) :
  startsWith p "/" = true -> startsWith p "//" = false ->
  leading_slashes p = 1.
Proof.
  destruct p as [|d p]; [discriminate |].
  rewrite startsWith_char. cbn [leading_slashes startsWith].
  intros E. rewrite E. rewrite Ascii.eqb_sym in E. rewrite E.
  cbn [andb]. intros H. f_equal. apply leading_slashes_none.
  destruct p as [|e p]; [reflexivity |].
  rewrite startsWith_char. now rewrite andb_true_r in H.
Qed.

(** ** [getAbsoluteUrl] *)

Section AbsoluteUrl.

Variable origin : string.

Lemma getAbsoluteUrl_http (p : string) :
  is_http p = true -> getAbsoluteUrl origin (JStr p) = Ok (JStr p).
Proof.
  intros H. unfold getAbsoluteUrl, is_http in *.
  assert (Hp : p <> "") by (intros ->; discriminate H).
  apply truthy_JStr in Hp. rewrite Hp; simpl negb; cbv iota.
  now rewrite H.
Qed.

Lemma getAbsoluteUrl_relative (p : string) :
  p <> "" -> is_http p = false ->
  getAbsoluteUrl origin (JStr p)
  = Ok (JStr (origin ++ (if startsWith p "/" then "" else "/") ++ p)).
Proof.
  intros Hp H. unfold getAbsoluteUrl, is_http in *.
  apply truthy_JStr in Hp. rewrite Hp; simpl negb; cbv iota.
  now rewrite H.
Qed.

(** C10.  Whatever falsy value [getAbsoluteUrl] is given ([null],
    [undefined], the empty string, and also [false] and [0]) it returns
    [null]: no string and no exception. *)
Theorem getAbsoluteUrl_falsy_is_null (path : value) :
  truthy path = false -> getAbsoluteUrl origin path = Ok JNull.
Proof.
  intros H. unfold getAbsoluteUrl. now rewrite H.
Qed.

(** C2, as the code has it.  A string that starts with [http://] or
    [https://] comes back unchanged, so a second application changes
    nothing.  Any other non-empty string comes back as the origin, one
    slash when the string brings none, and the string; exactly one slash
    follows the origin when the string does not start with two. *)
Theorem getAbsoluteUrl_boundary (p : string) :
  p <> "" ->
  exists u,
    getAbsoluteUrl origin (JStr p) = Ok (JStr u)
    /\ (is_http p = true ->
        u = p /\ getAbsoluteUrl origin (JStr u) = Ok (JStr u))
    /\ (is_http p = false ->
        u = origin ++ (if startsWith p "/" then "" else "/") ++ p
        /\ (startsWith p "//" = false -> boundary_slashes origin u = 1)).
Proof.
  intros Hp. destruct (is_http p) eqn:H.
  - exists p. split; [now apply getAbsoluteUrl_http |].
    split; [intros _ | discriminate].
    split; [reflexivity | now apply getAbsoluteUrl_http].
  - eexists. split; [now apply getAbsoluteUrl_relative |].
    split; [discriminate | intros _; split; [reflexivity |]].
    intros H2. unfold boundary_slashes. rewrite drop_app.
    destruct (startsWith p "/") eqn:H1.
    + now apply leading_slashes_one.
    + cbn [append leading_slashes]. rewrite Ascii.eqb_refl. f_equal.
      now apply leading_slashes_none.
Qed.

(** C4, as the code has it.  A non-empty path that starts with [http://]
    or [https://] is returned as it is; every other non-empty path is
    returned behind the configured origin, after a slash when the path
    does not begin with one. *)
Theorem getAbsoluteUrl_prefixes_origin (p : string) :
  p <> "" ->
  exists u,
    getAbsoluteUrl origin (JStr p) = Ok (JStr u)
    /\ (if is_http p then u = p
        else startsWith u origin = true
             /\ u = origin ++ (if startsWith p "/" then p else "/" ++ p)).
Proof.
  intros Hp. destruct (is_http p) eqn:H.
  - exists p. split; [now apply getAbsoluteUrl_http | reflexivity].
  - eexists. split; [now apply getAbsoluteUrl_relative |].
    split; [apply startsWith_app |].
    destruct (startsWith p "/"); reflexivity.
Qed.

End AbsoluteUrl.

Lemma getAbsoluteUrl_falsy_is_null_witness :
  truthy (JStr "") = false
  /\ getAbsoluteUrl "https://lekker.gay" (JStr "") = Ok JNull.
Proof.
  split; [reflexivity |].
  apply (getAbsoluteUrl_falsy_is_null "https://lekker.gay" (JStr "")).
  reflexivity.
Defined.

Lemma getAbsoluteUrl_boundary_witness :
  "watch?v=abc" <> ""
  /\ exists u,
       getAbsoluteUrl "https://lekker.gay" (JStr "watch?v=abc") = Ok (JStr u)
       /\ (is_http "watch?v=abc" = true ->
           u = "watch?v=abc"
           /\ getAbsoluteUrl "https://lekker.gay" (JStr u) = Ok (JStr u))
       /\ (is_http "watch?v=abc" = false ->
           u = "https://lekker.gay"
               ++ (if startsWith "watch?v=abc" "/" then "" else "/")
               ++ "watch?v=abc"
           /\ (startsWith "watch?v=abc" "//" = false ->
               boundary_slashes "https://lekker.gay" u = 1)).
Proof.
  assert (H : "watch?v=abc" <> "") by discriminate.
  split; [exact H |].
  exact (getAbsoluteUrl_boundary "https://lekker.gay" "watch?v=abc" H).
Defined.

Lemma getAbsoluteUrl_prefixes_origin_witness :
  "/vi/abc/mqdefault.jpg" <> ""
  /\ exists u,
       getAbsoluteUrl "https://lekker.gay" (JStr "/vi/abc/mqdefault.jpg")
       = Ok (JStr u)
       /\ (if is_http "/vi/abc/mqdefault.jpg" then u = "/vi/abc/mqdefault.jpg"
           else startsWith u "https://lekker.gay" = true
                /\ u = "https://lekker.gay"
                       ++ (if startsWith "/vi/abc/mqdefault.jpg" "/"
                           then "/vi/abc/mqdefault.jpg"
                           else "/" ++ "/vi/abc/mqdefault.jpg")).
Proof.
  assert (H : "/vi/abc/mqdefault.jpg" <> "") by discriminate.
  split; [exact H |].
  exact (getAbsoluteUrl_prefixes_origin "https://lekker.gay"
           "/vi/abc/mqdefault.jpg" H).
Defined.

(** C2 as written fails: a path that starts with two slashes keeps both
    behind the origin. *)
Lemma getAbsoluteUrl_keeps_double_slash :
  is_http "//i.ytimg.com/vi/abc/default.jpg" = false
  /\ getAbsoluteUrl "https://lekker.gay" (JStr "//i.ytimg.com/vi/abc/default.jpg")
     = Ok (JStr "https://lekker.gay//i.ytimg.com/vi/abc/default.jpg")
  /\ boundary_slashes "https://lekker.gay"
       "https://lekker.gay//i.ytimg.com/vi/abc/default.jpg" = 2.
Proof.
  repeat split.
Qed.

(** C4 as written fails: a URL with a scheme other than [http] or [https]
    is put behind the origin. *)
Lemma getAbsoluteUrl_prefixes_other_scheme :
  carries_scheme "ftp://example.com/a.mp4" = true
  /\ getAbsoluteUrl "https://lekker.gay" (JStr "ftp://example.com/a.mp4")
     = Ok (JStr "https://lekker.gay/ftp://example.com/a.mp4").
Proof.
  split; reflexivity.
Qed.

(** ** The structured search extraction (revision A) *)

Section Structured.

Variable origin : string.
Variable tls : value -> result string.

Lemma get_not_null (item : value) (k : string) :
  item <> JUndef -> item <> JNull -> get item k = Ok (opt_get item k).
Proof.
  destruct item; intros H1 H2; try reflexivity; congruence.
Qed.

Lemma getAbsoluteUrl_watch (x : string) :
  getAbsoluteUrl origin (JStr ("/watch?v=" ++ x))
  = Ok (JStr (origin ++ "/watch?v=" ++ x)).
Proof. reflexivity. Qed.

(** An item whose type is not ['video'] maps to [null]. *)
Lemma search_item_other (item : value) :
  item <> JUndef -> item <> JNull -> is_video_item item = false ->
  search_item origin tls item = Ok None.
Proof.
  intros H1 H2 Hty. unfold search_item.
  rewrite get_not_null by assumption. cbn [rbind].
  unfold is_video_item in Hty. now rewrite Hty.
Qed.

(** An item of type ['video'] maps to a summary, field by field. *)
Lemma search_item_video (item : value) :
  item_ok tls item = true -> is_video_item item = true ->
  exists s, search_item origin tls item = Ok (Some s) /\ maps_to origin tls item s.
Proof.
  intros Hok Hty.
  assert (H1 : item <> JUndef) by (intros ->; discriminate Hok).
  assert (H2 : item <> JNull) by (intros ->; discriminate Hok).
  assert (Hok' : (match thumbnail_source item with
                  | JStr _ => true
                  | v => negb (truthy v)
                  end)
                 && (if truthy (opt_get item "viewCount")
                     then returns (tls (opt_get item "viewCount"))
                     else true)
                 && returns (toString (opt_get item "videoId")) = true).
  { unfold item_ok in Hok. rewrite Hty in Hok. now destruct item. }
  apply andb_true_iff in Hok' as [Hok' Hid].
  apply andb_true_iff in Hok' as [Hth Hvc].
  assert (Hth' : exists u, getAbsoluteUrl origin (thumbnail_source item) = Ok u).
  { unfold getAbsoluteUrl.
    destruct (thumbnail_source item) eqn:E; cbn [truthy negb] in *;
      try (eexists; reflexivity).
    - rewrite Hth. eexists; reflexivity.
    - rewrite Hth. eexists; reflexivity.
    - destruct (negb (negb (s =? ""))); [| destruct (_ || _)];
        eexists; reflexivity.
    - discriminate.
    - discriminate. }
  destruct Hth' as [u Hu].
  destruct (toString (opt_get item "videoId")) as [printed|e] eqn:Hp;
    [| discriminate Hid].
  unfold search_item. rewrite !get_not_null by assumption. cbn [rbind].
  unfold is_video_item in Hty. rewrite Hty.
  fold (thumbnail_source item). rewrite Hu, Hp. cbn [rbind].
  rewrite getAbsoluteUrl_watch.
  destruct (truthy (opt_get item "viewCount")) eqn:Evc.
  - destruct (tls (opt_get item "viewCount")) as [n|e] eqn:En; [| discriminate].
    cbn [rbind]. eexists; split; [reflexivity |].
    unfold maps_to; cbn. rewrite Evc. repeat split; try assumption.
    + exists n. split; [assumption | reflexivity].
    + exists printed. split; [assumption | reflexivity].
  - cbn [rbind]. eexists; split; [reflexivity |].
    unfold maps_to; cbn. rewrite Evc. repeat split; try assumption.
    exists printed. split; [assumption | reflexivity].
Qed.

(** Whenever the mapping returns, it returns [null] for an item of another
    type and the field-by-field summary for an item of type ['video']. *)
Lemma search_item_sound (item : value) (r : option VideoSummary) :
  search_item origin tls item = Ok r ->
  match r with
  | None => is_video_item item = false
  | Some s => is_video_item item = true /\ maps_to origin tls item s
  end.
Proof.
  intros H.
  assert (H1 : item <> JUndef) by (intros ->; discriminate H).
  assert (H2 : item <> JNull) by (intros ->; discriminate H).
  unfold search_item in H. rewrite !get_not_null in H by assumption.
  cbn [rbind] in H. fold (is_video_item item) in H.
  destruct (is_video_item item) eqn:Hty; [| now injection H as <-].
  fold (thumbnail_source item) in H.
  destruct (getAbsoluteUrl origin (thumbnail_source item)) as [u|e] eqn:Hu;
    [| discriminate H].
  cbn [rbind] in H.
  assert (G : forall views,
             (let* printed := toString (opt_get item "videoId") in
              let* url := getAbsoluteUrl origin (JStr ("/watch?v=" ++ printed)) in
              Ok (Some (Build_VideoSummary (opt_get item "title")
                          (opt_get item "videoId") u (opt_get item "author")
                          views (opt_get item "publishedText") url))) = Ok r ->
             exists printed,
               toString (opt_get item "videoId") = Ok printed
               /\ r = Some (Build_VideoSummary (opt_get item "title")
                              (opt_get item "videoId") u (opt_get item "author")
                              views (opt_get item "publishedText")
                              (JStr (origin ++ "/watch?v=" ++ printed)))).
  { intros views G.
    destruct (toString (opt_get item "videoId")) as [printed|e];
      [| discriminate G].
    cbn [rbind] in G. rewrite getAbsoluteUrl_watch in G. cbn [rbind] in G.
    injection G as <-. now exists printed. }
  destruct (truthy (opt_get item "viewCount")) eqn:Evc.
  - destruct (tls (opt_get item "viewCount")) as [n|e] eqn:En;
      [| discriminate H].
    cbn [rbind] in H. apply G in H as (printed & Hp & ->).
    split; [reflexivity |].
    unfold maps_to; cbn. rewrite Evc. repeat split; try assumption.
    + exists n. split; [assumption | reflexivity].
    + exists printed. split; [assumption | reflexivity].
  - cbn [rbind] in H. apply G in H as (printed & Hp & ->).
    split; [reflexivity |].
    unfold maps_to; cbn. rewrite Evc. repeat split; try assumption.
    exists printed. split; [assumption | reflexivity].
Qed.

Lemma searchResults_sound (items : list value) (out : list VideoSummary) :
  searchResults origin tls (JArr items) = Ok out ->
  Forall2 (maps_to origin tls) (filter is_video_item items) out.
Proof.
  unfold searchResults. revert out.
  induction items as [|item rest IH]; intros out H.
  - injection H as <-. constructor.
  - cbn [map_result] in H.
    destruct (search_item origin tls item) as [r|e] eqn:Hr; [| discriminate H].
    cbn [rbind] in H.
    destruct (map_result (search_item origin tls) rest) as [mapped|e] eqn:Em;
      [| discriminate H].
    cbn [rbind] in H. injection H as <-.
    specialize (IH _ eq_refl). apply search_item_sound in Hr.
    cbn [filter]. destruct r as [s|].
    + destruct Hr as [-> Hs]. cbn [filter_non_null]. now constructor.
    + rewrite Hr. exact IH.
Qed.

Lemma searchResults_total (items : list value) :
  Forall (fun item => item_ok tls item = true) items ->
  exists out, searchResults origin tls (JArr items) = Ok out.
Proof.
  intros H. unfold searchResults.
  induction H as [|item rest Hitem Hrest IH].
  - exists []. reflexivity.
  - destruct IH as [out Hout].
    destruct (map_result (search_item origin tls) rest) as [mapped|e] eqn:Em;
      [| discriminate].
    cbn [map_result].
    destruct (is_video_item item) eqn:Hty.
    + destruct (search_item_video item Hitem Hty) as [s [Hs _]].
      rewrite Hs, Em. eexists; reflexivity.
    + rewrite search_item_other; try assumption;
        try (intros ->; discriminate Hitem).
      rewrite Em. eexists; reflexivity.
Qed.

(** C7, as the code has it.  In the structured search extraction,
    whatever the extraction returns on an upstream array holds, in order,
    one summary for each item of type ['video'] and nothing for any other
    item, and each summary takes its fields from its item; the extraction
    does return on every array whose items the mapping can read. *)
Theorem searchResults_keeps_videos (items : list value) :
  (forall out,
     searchResults origin tls (JArr items) = Ok out ->
     Forall2 (maps_to origin tls) (filter is_video_item items) out
     /\ length out = length (filter is_video_item items))
  /\ (Forall (fun item => item_ok tls item = true) items ->
      exists out, searchResults origin tls (JArr items) = Ok out).
Proof.
  split.
  - intros out H. apply searchResults_sound in H.
    split; [exact H | symmetry; now apply Forall2_length in H].
  - apply searchResults_total.
Qed.

End Structured.

(** ** The helpers at their call sites *)

(** Every call site passes a selection where the helper expects the query
    function, and the helper's first statement calls it. *)
Lemma getText_of_selection (s : selection) (x : selector) :
  getText (Sel s) x = Throw (TypeError "$ is not a function").
Proof. reflexivity. Qed.

Lemma getAttr_of_selection (s : selection) (x : selector) (a : option string) :
  getAttr (Sel s) x a = Throw (TypeError "$ is not a function").
Proof. reflexivity. Qed.

Lemma each_nil {A} (cb : node -> A -> result A) (acc : A) :
  each [] cb acc = Ok acc.
Proof. reflexivity. Qed.

Lemma each_throwing {A} (cb : node -> A -> result A) (e : exn) :
  (forall n acc, cb n acc = Throw e) ->
  forall sel acc out, each sel cb acc = Ok out -> sel = [] /\ out = acc.
Proof.
  intros Hcb [|n rest] acc out; cbn [each].
  - intros [= <-]. split; reflexivity.
  - rewrite Hcb. discriminate.
Qed.

Section Facts.

Variable origin : string.
Variable upstream : string -> reply.
Variable load : value -> result document.
Variable tls : value -> result string.

Lemma listing_item_throws (d : document) (n : node) (acc : list VideoSummary) :
  listing_item origin d n acc = Throw (TypeError "$ is not a function").
Proof. reflexivity. Qed.

Lemma format_item_throws (d : document) (n : node) (acc : list Format) :
  format_item origin d n acc = Throw (TypeError "$ is not a function").
Proof. reflexivity. Qed.

Lemma comment_item_throws (d : document) (n : node) (acc : list Comment) :
  comment_item d n acc = Throw (TypeError "$ is not a function").
Proof. reflexivity. Qed.

(** [axios.get] logs the request and resolves only on a 2xx answer. *)
Lemma axios_get_spec (url : string) (log : list string) :
  axios_get upstream url log
  = (match accepted (upstream url) with
     | Some data => Ok data
     | None => Throw (AxiosError match upstream url with
                                 | NoReply => None
                                 | Reply st _ => Some st
                                 end)
     end, (log ++ [url])%list).
Proof.
  unfold axios_get, accepted.
  destruct (upstream url) as [|st data]; [reflexivity |].
  now destruct ((200 <=? st) && (st <? 300))%Z.
Qed.

(** Symbolic execution of a handler: unfold the monad, then split on every
    scrutinee that is left. *)
Ltac split_scrutinee :=
  match goal with
  | |- context [match ?x with _ => _ end] => destruct x eqn:?
  end.

Ltac unfold_tries :=
  unfold popular_try, search_api_try, search_html_try, search_api_from,
    search_html_from, video_try, comments_try, bind, lift, ret.

Ltac use_printed :=
  unfold query_text;
  repeat match goal with
         | H : toString _ = _ |- _ => rewrite H
         end;
  cbv beta iota.

Ltac run_M :=
  unfold_tries; unfold try_catch, res_json, res_status;
  cbn [target]; use_printed;
  repeat (rewrite axios_get_spec || split_scrutinee || cbn [fst snd]);
  try reflexivity; try discriminate.

Ltac simplify_attempt H :=
  repeat match type of H with
         | context [if ?b then _ else _] => destruct b eqn:?
         | context [match ?x with Ok _ => _ | Throw _ => _ end] =>
             destruct x eqn:?
         end;
  try discriminate H; injection H as <-.

(** Each [try] block starts with one request to its target; nothing
    else is requested. *)
Lemma attempt_requests_target (rev : revision) (r : route) (req : request)
    (body : M payload) (log : list string) :
  attempt origin upstream load tls rev r req = Some body ->
  snd (body log) = (log ++ [target origin rev r req])%list
  /\ (accepted (upstream (target origin rev r req)) = None ->
      exists e, fst (body log) = Throw e).
Proof.
  intros H; split.
  - destruct r, rev; cbn [attempt] in H; simplify_attempt H; run_M.
  - intros Hno.
    destruct r, rev; cbn [attempt] in H; simplify_attempt H;
      unfold_tries; cbn [target] in Hno |- *;
      unfold query_text in Hno |- *;
      repeat match goal with
             | E : toString _ = _ |- _ => rewrite E in Hno; clear E
             end;
      cbv beta iota in Hno;
      rewrite axios_get_spec, Hno; eexists; reflexivity.
Qed.

(** What a handler answers once it got as far as its upstream request,
    from what the rest of the [try] block does. *)
Lemma handler_try (rev : revision) (r : route) (req : request)
    (body : M payload) (log : list string) :
  attempt origin upstream load tls rev r req = Some body ->
  handler origin upstream load tls rev r req log
  = (match fst (body log) with
     | Ok v => Ok (Response 200 v)
     | Throw _ => Ok (Response 500 (PError (failure_message rev r)))
     end, snd (body log)).
Proof.
  intros H.
  destruct r, rev; cbn [attempt] in H; simplify_attempt H;
    cbn [handler failure_message];
    unfold popular, search_api, search_html, video, comments,
      search_api_try, search_html_try,
      try_catch, bind, lift, res_json, res_status, ret;
    rewrite ?Heqb; cbn [negb];
    repeat match goal with
           | E : toString _ = _ |- _ => rewrite E; clear E
           end;
    match goal with
    | |- context [?m log] =>
        match type of m with M payload => destruct (m log) as [[v|e] l] end
    end; reflexivity.
Qed.

(** What a handler answers when it does not get that far. *)
Lemma handler_no_try (rev : revision) (r : route) (req : request)
    (log : list string) :
  attempt origin upstream load tls rev r req = None ->
  handler origin upstream load tls rev r req log
  = (Ok (match r with
         | Health => Response 200 (PText "OK")
         | ApiSearch =>
             if truthy (query_q req)
             then Response 500 (PError (failure_message rev r))
             else Response 400 (PError q_required)
         | _ => Response 400 (PError "Video ID is required.")
         end), log).
Proof.
  intros H.
  destruct r, rev; cbn [attempt] in H;
    repeat match type of H with
           | context [if ?b then _ else _] => destruct b eqn:?
           | context [match ?x with Ok _ => _ | Throw _ => _ end] =>
               destruct x eqn:?
           end; try discriminate H;
    cbn [handler failure_message];
    unfold search_api, search_html, video, comments, health,
      search_api_try, search_html_try, try_catch, bind, lift,
      res_status, ret;
    rewrite ?Heqb; cbn [negb];
    repeat match goal with
           | E : toString _ = _ |- _ => rewrite E; clear E
           end;
    reflexivity.
Qed.

(** A handler gets as far as its upstream request exactly when the request
    passes the check and the URL can be built. *)
Lemma attempt_iff_check (rev : revision) (r : route) (req : request) :
  attempt origin upstream load tls rev r req = None
  <-> r = Health \/ passes_check r req = false \/ prints r req = false.
Proof.
  destruct r, rev; cbn [attempt passes_check prints];
    try destruct (truthy (query_q req));
    try destruct (toString (query_q req));
    try destruct (truthy (JStr (params_videoId req)));
    cbn [returns];
    split; intros H; try discriminate H; try reflexivity; auto;
    destruct H as [H | [H | H]]; discriminate H.
Qed.

(** From the request on, a [try] block is the request followed by the
    extraction. *)
Lemma attempt_is_extraction (rev : revision) (r : route) (req : request)
    (blk : M payload) (log : list string) :
  attempt origin upstream load tls rev r req = Some blk ->
  blk log
  = (match accepted (upstream (target origin rev r req)) with
     | Some data => extraction origin load tls rev r req data
     | None => Throw (AxiosError match upstream (target origin rev r req) with
                                 | NoReply => None
                                 | Reply st _ => Some st
                                 end)
     end, (log ++ [target origin rev r req])%list).
Proof.
  intros H.
  destruct r, rev; cbn [attempt] in H; simplify_attempt H;
    unfold_tries; cbn [target extraction]; use_printed;
    rewrite axios_get_spec;
    (destruct (accepted _) as [data|]; [| reflexivity]);
    try (destruct (load data) as [d|e]; [| reflexivity]);
    cbn [rbind];
    match goal with
    | |- context [each ?src ?cb ?acc] => destruct (each src cb acc)
    | |- context [searchResults ?o ?t ?d] => destruct (searchResults o t d)
    end; reflexivity.
Qed.

(** Every handler computes the answer the claims describe, and logs the
    one request of its [try] block. *)
Lemma handler_answer (rev : revision) (r : route) (req : request)
    (log : list string) :
  handler origin upstream load tls rev r req log
  = (Ok (answer origin upstream load tls rev r req),
     match attempt origin upstream load tls rev r req with
     | Some _ => (log ++ [target origin rev r req])%list
     | None => log
     end).
Proof.
  destruct (attempt origin upstream load tls rev r req) as [blk|] eqn:Ha.
  - rewrite (handler_try _ _ _ _ log Ha), (attempt_is_extraction _ _ _ _ log Ha).
    cbn [fst snd]. f_equal. f_equal.
    assert (Hc : passes_check r req = true /\ prints r req = true
                 /\ r <> Health).
    { destruct (passes_check r req) eqn:Hc; [destruct (prints r req) eqn:Hp |].
      - repeat split. intros ->. discriminate Ha.
      - assert (Hn : attempt origin upstream load tls rev r req = None)
          by (apply attempt_iff_check; now right; right).
        congruence.
      - assert (Hn : attempt origin upstream load tls rev r req = None)
          by (apply attempt_iff_check; now right; left).
        congruence. }
    destruct Hc as (Hc & Hp & Hr). unfold answer. rewrite Hc, Hp.
    destruct r; try congruence;
      destruct (accepted _); try reflexivity;
      destruct (extraction _ _ _ _ _ _ _); reflexivity.
  - rewrite (handler_no_try _ _ _ log Ha). f_equal. f_equal.
    apply attempt_iff_check in Ha. unfold answer.
    destruct Ha as [-> | [Hc | Hp]]; [reflexivity | |].
    + rewrite Hc. destruct r; try reflexivity; try discriminate Hc.
      cbn [passes_check] in Hc. now rewrite Hc.
    + rewrite Hp. destruct r; try discriminate Hp.
      cbn [passes_check]. now destruct (truthy (query_q req)).
Qed.

(** What makes an extraction throw: a body [cheerio.load] rejects, on
    every route that parses markup, and data that is not an array, on the
    structured search. *)
Lemma extraction_needs_markup (rev : revision) (r : route) (req : request)
    (data : value) (e : exn) :
  load data = Throw e ->
  scraped_route rev r = true ->
  extraction origin load tls rev r req data = Throw e.
Proof.
  intros Hl Hr. destruct r, rev; try discriminate Hr;
    cbn [extraction]; now rewrite Hl.
Qed.

Lemma extraction_needs_array (req : request) (data : value) :
  (forall items, data <> JArr items) ->
  returns (extraction origin load tls A ApiSearch req data) = false.
Proof.
  intros H. cbn [extraction]. unfold searchResults.
  destruct data; try reflexivity. now destruct (H l).
Qed.

(** *** Further properties of the handlers *)

(** A [try] block that returns never returns an error payload. *)
Lemma attempt_returns_no_error (rev : revision) (r : route) (req : request)
    (blk : M payload) (log log' : list string) (v : payload) :
  attempt origin upstream load tls rev r req = Some blk ->
  blk log = (Ok v, log') -> is_error v = false.
Proof.
  intros H.
  destruct r, rev; cbn [attempt] in H; simplify_attempt H;
    unfold_tries; rewrite axios_get_spec;
    repeat split_scrutinee; intros [= <- _]; reflexivity.
Qed.

(** X13.  Lines 43-208: a handler asks the upstream at most once.  It asks for
    the URL of its route when it gets as far as its upstream request, and
    asks nothing when it answers 400, cannot build the URL or serves
    [/health]; the log it was given is kept as it was. *)
Theorem handler_requests (rev : revision) (r : route) (req : request)
    (log : list string) :
  snd (handler origin upstream load tls rev r req log)
  = match attempt origin upstream load tls rev r req with
    | Some _ => (log ++ [target origin rev r req])%list
    | None => log
    end.
Proof.
  destruct (attempt origin upstream load tls rev r req) as [blk|] eqn:Ha.
  - rewrite (handler_try _ _ _ _ log Ha). cbn [snd].
    now apply (attempt_requests_target _ _ _ _ log Ha).
  - now rewrite (handler_no_try _ _ _ log Ha).
Qed.

(** X14.  Lines 43-208: every answer has status 200, 400 or 500, and it carries
    an error body exactly when its status is not 200. *)
Theorem error_body_iff_not_200 (rev : revision) (r : route) (req : request)
    (log : list string) :
  exists resp log',
    handler origin upstream load tls rev r req log = (Ok resp, log')
    /\ (status resp = 200 \/ status resp = 400 \/ status resp = 500)%Z
    /\ (is_error (body resp) = true <-> status resp <> 200%Z).
Proof.
  destruct (attempt origin upstream load tls rev r req) as [blk|] eqn:Ha.
  - rewrite (handler_try _ _ _ _ log Ha).
    destruct (blk log) as [[v|e] l] eqn:Hb; cbn [fst snd].
    + eexists _, _. split; [reflexivity |]. cbn [status body].
      split; [now left |].
      rewrite (attempt_returns_no_error _ _ _ _ _ _ _ Ha Hb).
      split; [discriminate | congruence].
    + eexists _, _. split; [reflexivity |]. cbn [status body is_error].
      split; [now right; right |]. split; [discriminate | reflexivity].
  - rewrite (handler_no_try _ _ _ log Ha).
    eexists _, _. split; [reflexivity |].
    destruct r; try destruct (truthy (query_q req));
      cbn [status body is_error];
      (split; [auto |]); split; try discriminate; try reflexivity;
      try congruence.
    all: cbn [attempt] in Ha; discriminate Ha.
Qed.

(** X15.  Lines 43-69, 286-317 and 178-203: a route that scrapes markup answers
    200 with an empty array when the page holds no item, and 500 with its
    fixed message as soon as the page holds one. *)
Theorem markup_list_answers (rev : revision) (r : route) (req : request)
    (log : list string) (data : value) (d : document) (items : selection) :
  attempt origin upstream load tls rev r req <> None ->
  scraped_items rev r d = Some items ->
  accepted (upstream (target origin rev r req)) = Some data ->
  load data = Ok d ->
  handler origin upstream load tls rev r req log
  = (Ok (match items with
         | [] => Response 200 (empty_list_payload r)
         | _ :: _ => Response 500 (PError (failure_message rev r))
         end), (log ++ [target origin rev r req])%list).
Proof.
  intros Ha Hs Hacc Hl.
  destruct (attempt origin upstream load tls rev r req) as [blk|] eqn:Hb;
    [clear Ha | congruence].
  rewrite (handler_try _ _ _ _ log Hb).
  destruct r, rev; try discriminate Hs; cbn [scraped_items] in Hs;
    injection Hs as <-; cbn [attempt] in Hb; simplify_attempt Hb;
    cbn [target] in Hacc |- *; unfold query_text in Hacc |- *;
    repeat match goal with
           | E : toString _ = _ |- _ => rewrite E in Hacc |- *; clear E
           end;
    cbv beta iota in Hacc |- *;
    unfold_tries;
    rewrite axios_get_spec, Hacc, Hl; cbn [fst snd];
    match goal with
    | |- context [each ?src _ _] => destruct src as [|n rest]
    end; reflexivity.
Qed.

(** X16.  Lines 135-175 and 320-360: with a non-empty id [/api/video/:videoId]
    asks the upstream once and answers 500 with its fixed message,
    whatever the upstream answers. *)
Theorem video_answers_500 (rev : revision) (req : request) (log : list string) :
  params_videoId req <> "" ->
  handler origin upstream load tls rev ApiVideo req log
  = (Ok (Response 500 (PError "Failed to fetch video information")),
     (log ++ [target origin rev ApiVideo req])%list).
Proof.
  intros Hid. apply truthy_JStr in Hid.
  cbn [handler]. unfold video. rewrite Hid. cbn [negb].
  unfold try_catch, bind, video_try, bind, lift, ret, res_json, res_status.
  rewrite axios_get_spec. cbn [target].
  destruct (accepted _) as [data|]; [| reflexivity].
  destruct (load data) as [d|e]; [| reflexivity].
  destruct (each _ _ _); reflexivity.
Qed.

End Facts.

(** Every URL a handler asks for starts with the origin it was given. *)
Lemma handler_requests_on_origin (origin : string) (upstream : string -> reply)
    (load : value -> result document) (tls : value -> result string)
    (rev : revision) (r : route) (req : request) (log : list string)
    (url : string) :
  In url (snd (handler origin upstream load tls rev r req log)) ->
  In url log \/ startsWith url origin = true.
Proof.
  rewrite handler_answer. cbn [snd].
  destruct (attempt origin upstream load tls rev r req) as [blk|] eqn:Ha;
    [| now left].
  intros H. apply in_app_or in H as [H | [<- | []]]; [now left | right].
  destruct r, rev; try (cbn [attempt] in Ha; discriminate Ha);
    cbn [target]; apply startsWith_app.
Qed.

(** C3.  Every handler answers every request: nothing it throws leaves
    it, in the handler or in the running application.  On a request that
    passed the parameter check, the answer is 500 with the fixed message
    of the handler when the URL cannot be built, when the upstream does
    not answer, when it answers outside 200..299 and when the extraction
    throws on the body, which it does on a body [cheerio.load] rejects
    and, for the structured search, on data that is not an array; the
    answer is 200 with what the extraction returns otherwise. *)
Theorem every_failure_answers_500 (origin : string) (upstream : string -> reply)
    (load : value -> result document) (tls : value -> result string)
    (rev : revision) (r : route) (req : request) (log : list string) :
  (exists resp log',
     handler origin upstream load tls rev r req log = (Ok resp, log'))
  /\ (passes_check r req = true -> r <> Health ->
      if prints r req then
        match upstream (target origin rev r req) with
        | NoReply =>
            fst (handler origin upstream load tls rev r req log)
            = Ok (Response 500 (PError (failure_message rev r)))
        | Reply st data =>
            if ((200 <=? st) && (st <? 300))%Z
            then match extraction origin load tls rev r req data with
                 | Ok v =>
                     fst (handler origin upstream load tls rev r req log)
                     = Ok (Response 200 v)
                 | Throw _ =>
                     fst (handler origin upstream load tls rev r req log)
                     = Ok (Response 500 (PError (failure_message rev r)))
                 end
            else fst (handler origin upstream load tls rev r req log)
                 = Ok (Response 500 (PError (failure_message rev r)))
        end
      else fst (handler origin upstream load tls rev r req log)
           = Ok (Response 500 (PError (failure_message rev r))))
  /\ (forall data e,
        load data = Throw e -> scraped_route rev r = true ->
        extraction origin load tls rev r req data = Throw e)
  /\ (forall data,
        (forall items, data <> JArr items) ->
        returns (extraction origin load tls A ApiSearch req data) = false)
  /\ (forall e,
        match fst (express_app rev e upstream load tls r req log) with
        | Unhandled _ => False
        | _ => True
        end).
Proof.
  split; [rewrite handler_answer; now eexists _, _ |].
  split.
  { intros Hc Hr. rewrite handler_answer. cbn [fst]. unfold answer.
    rewrite Hc. unfold accepted.
    destruct (prints r req); [| destruct r; congruence].
    destruct (upstream (target origin rev r req)) as [|st data].
    - destruct r; congruence.
    - destruct ((200 <=? st) && (st <? 300))%Z.
      + destruct (extraction origin load tls rev r req data);
          destruct r; congruence.
      + destruct r; congruence. }
  split; [intros data e; apply extraction_needs_markup |].
  split; [intros data; apply extraction_needs_array |].
  intros e. unfold express_app.
  destruct (load_module rev); [| exact I].
  destruct (routed r req); [| exact I].
  now rewrite handler_answer.
Qed.

(** C5, as the code has it.  [/api/search] answers 400 with the error
    body exactly when [q] is falsy, that is absent or empty, and then asks
    the upstream nothing.  With any other [q] that prints, as every string
    does, it asks the upstream once; it answers 500 with its fixed message
    when the upstream gives no 2xx answer, and on a 2xx answer it answers
    200 with the array: the mapped one when the structured extraction
    returns, the empty one when the page of the markup search holds no
    item.  A truthy [q] that does not print is answered 500 before any
    request. *)
Theorem search_answers (origin : string) (upstream : string -> reply)
    (load : value -> result document) (tls : value -> result string)
    (rev : revision) (req : request) (log : list string) :
  (exists resp,
     fst (handler origin upstream load tls rev ApiSearch req log) = Ok resp
     /\ (status resp = 400%Z <-> truthy (query_q req) = false))
  /\ if truthy (query_q req)
     then
       match toString (query_q req) with
       | Ok printed =>
           snd (handler origin upstream load tls rev ApiSearch req log)
           = (log ++ [(origin ++ route_path rev ApiSearch
                              ++ encodeURIComponent printed)%string])%list
           /\ match accepted (upstream (target origin rev ApiSearch req)) with
              | None =>
                  fst (handler origin upstream load tls rev ApiSearch req log)
                  = Ok (Response 500 (PError (failure_message rev ApiSearch)))
              | Some data =>
                  match rev with
                  | A =>
                      forall found,
                        searchResults origin tls data = Ok found ->
                        fst (handler origin upstream load tls rev ApiSearch
                               req log)
                        = Ok (Response 200 (PSummaries found))
                  | B =>
                      forall d,
                        load data = Ok d -> listing_source d = [] ->
                        fst (handler origin upstream load tls rev ApiSearch
                               req log)
                        = Ok (Response 200 (PSummaries []))
                  end
              end
       | Throw _ =>
           handler origin upstream load tls rev ApiSearch req log
           = (Ok (Response 500 (PError (failure_message rev ApiSearch))), log)
       end
     else handler origin upstream load tls rev ApiSearch req log
          = (Ok (Response 400 (PError q_required)), log).
Proof.
  rewrite handler_answer. cbn [fst snd]. unfold answer.
  cbn [passes_check prints attempt check_message target]. unfold query_text.
  destruct (truthy (query_q req)) eqn:Hq.
  - destruct (toString (query_q req)) as [printed|e] eqn:Hp; cbn [returns].
    + split.
      * destruct (accepted _); [destruct (extraction _ _ _ _ _ _ _) |];
          eexists; (split; [reflexivity |]); cbn [status];
          split; discriminate.
      * split; [now destruct rev |].
        destruct (accepted _) as [data|]; [| reflexivity].
        destruct rev; cbn [extraction].
        -- intros found ->. reflexivity.
        -- intros d Hl Hs. rewrite Hl. cbn [rbind]. rewrite Hs. reflexivity.
    + split; [| reflexivity].
      eexists; (split; [reflexivity |]); cbn [status]; split; discriminate.
  - split; [| reflexivity].
    eexists. split; [reflexivity |]. cbn [status]. split; reflexivity.
Qed.

(** [/api/video/:videoId] never answers 200: with an empty id the answer is
    400, and otherwise the [try] block always throws, at the latest where
    the title is read. *)
Lemma video_never_succeeds (origin : string) (upstream : string -> reply)
    (load : value -> result document) (tls : value -> result string)
    (rev : revision) (req : request) (log : list string) :
  exists resp log',
    handler origin upstream load tls rev ApiVideo req log = (Ok resp, log')
    /\ (status resp = 400%Z \/ status resp = 500%Z)
    /\ exists msg, body resp = PError msg.
Proof.
  rewrite handler_answer. eexists _, _. split; [reflexivity |].
  unfold answer. cbn [passes_check extraction].
  destruct (truthy (JStr (params_videoId req)));
    [| split; [now left | now eexists]].
  destruct (accepted _) as [data|]; [| split; [now right | now eexists]].
  destruct (load data) as [d|e]; cbn [rbind];
    [| split; [now right | now eexists]].
  destruct (each _ _ _); split; (now right) || (now eexists).
Qed.

(** C9.  [/health] answers 200 with the plain body OK whatever the
    request, the environment, the origin and the upstream are, and asks
    the upstream nothing: so does the handler of either revision, and so
    does the running application. *)
Theorem health_always_ok (rev : revision) (e : env) (origin : string)
    (upstream : string -> reply) (load : value -> result document)
    (tls : value -> result string) (req : request) (log : list string) :
  handler origin upstream load tls rev Health req log
  = (Ok (Response 200 (PText "OK")), log)
  /\ express_app B e upstream load tls Health req log
     = (Answered (Response 200 (PText "OK")), log).
Proof.
  split; reflexivity.
Qed.

(** C8.  The origin every request of the running application goes to is
    the environment variable INVIDIOUS_INSTANCE when it is set and not
    empty, and the fixed [https://lekker.gay] otherwise; the port is the
    variable PORT when it is set and not empty, and 3000 otherwise. *)
Theorem instance_and_port_from_environment (e : env) :
  RevB.INVIDIOUS_INSTANCE e
  = match e "INVIDIOUS_INSTANCE" with
    | Some s => if s =? "" then "https://lekker.gay" else s
    | None => "https://lekker.gay"
    end
  /\ PORT e = match e "PORT" with
              | Some s => if s =? "" then JNum (Number false "3000") else JStr s
              | None => JNum (Number false "3000")
              end
  /\ forall rev upstream load tls r req log url,
       In url (snd (express_app rev e upstream load tls r req log)) ->
       In url log \/ startsWith url (RevB.INVIDIOUS_INSTANCE e) = true.
Proof.
  split; [| split].
  - unfold RevB.INVIDIOUS_INSTANCE, env_get, or_else.
    destruct (e "INVIDIOUS_INSTANCE") as [s|]; [| reflexivity].
    cbn [truthy]. now destruct (s =? "").
  - unfold PORT, env_get, or_else.
    destruct (e "PORT") as [s|]; [| reflexivity].
    cbn [truthy]. now destruct (s =? "").
  - intros rev upstream load tls r req log url. unfold express_app.
    destruct rev; cbn [load_module snd]; [now left |].
    destruct (routed r req); [| now left].
    destruct (handler _ _ _ _ _ _ _ _) as [[resp|x] log'] eqn:Hh;
      cbn [snd]; intros H;
      apply (handler_requests_on_origin (RevB.INVIDIOUS_INSTANCE e) upstream
               load tls B r req log); now rewrite Hh.
Qed.


(** ** The claims at concrete inputs *)

Lemma getText_of_api :
  getText (Api Sample.watch_page) (SelStr ".video-title")
  = Ok (JStr "Never Gonna").
Proof. reflexivity. Qed.

Lemma searchResults_keeps_videos_witness :
  Forall (fun item => item_ok Sample.plain_locale item = true)
    [Sample.video_item; Sample.channel_item; JBool true]
  /\ exists out,
       searchResults "https://lekker.gay" Sample.plain_locale
         (JArr [Sample.video_item; Sample.channel_item; JBool true]) = Ok out
       /\ Forall2 (maps_to "https://lekker.gay" Sample.plain_locale)
            (filter is_video_item
               [Sample.video_item; Sample.channel_item; JBool true])
            out
       /\ length out = 1.
Proof.
  assert (H : Forall (fun item => item_ok Sample.plain_locale item = true)
                [Sample.video_item; Sample.channel_item; JBool true])
    by (repeat constructor).
  split; [exact H |].
  destruct (searchResults_keeps_videos "https://lekker.gay" Sample.plain_locale
              [Sample.video_item; Sample.channel_item; JBool true])
    as [Hsound Htotal].
  destruct (Htotal H) as [out Hout].
  exists out. split; [exact Hout |]. exact (Hsound out Hout).
Defined.

(** C7 as written fails: with one [null] among the items the extraction
    throws, and the item of type ['video'] beside it is not mapped. *)
Lemma searchResults_null_item_throws :
  is_video_item Sample.video_item = true
  /\ searchResults "https://lekker.gay" Sample.plain_locale
       (JArr [Sample.video_item; JNull])
     = Throw (TypeError "cannot read properties of null or undefined").
Proof.
  split; [reflexivity | vm_compute; reflexivity].
Qed.

(** C1 on a feed of two items.  The link of one leads to a watch page and
    the link of the other to a channel, so the videoId expression gives an
    id for the first and [undefined] for the second; the application
    answers 500, not the one item that has an id. *)
Lemma popular_mixed_feed_answers_500 :
  listing_source Page.mixed_feed = [Page.item; Page.channel]
  /\ split_v1 (JStr "/watch?v=abc") = Ok (JStr "abc")
  /\ split_v1 (JStr "/channel/UCabc") = Ok JUndef
  /\ express_app B Sample.no_env (Sample.html "<html>...</html>")
       (Sample.parse Page.mixed_feed) Sample.plain_locale ApiPopular
       Sample.lofi []
     = (Answered (Response 500 (PError "Failed to fetch popular videos")),
        ["https://lekker.gay/feed/popular"]).
Proof.
  repeat split; vm_compute; reflexivity.
Qed.

(** C5 as written fails: with [q] present and empty the answer is 400, in
    the running application and in the handler of revision A alike. *)
Lemma search_empty_q_answers_400 :
  query_q Sample.empty_q = JStr ""
  /\ express_app B Sample.no_env (Sample.html "<html></html>")
       (Sample.parse Sample.watch_page) Sample.plain_locale ApiSearch
       Sample.empty_q []
     = (Answered (Response 400 (PError q_required)), [])
  /\ handler "https://lekker.gay" (Sample.search_json [])
       (Sample.parse Sample.watch_page) Sample.plain_locale A ApiSearch
       Sample.empty_q []
     = (Ok (Response 400 (PError q_required)), []).
Proof.
  repeat split.
Qed.

(** C6 at a known id: the watch page holds a download link and a title,
    the upstream answers 200, and the handler answers 500. *)
Lemma video_known_id_answers_500 :
  express_app B Sample.no_env (Sample.html "<html>...</html>")
    (Sample.parse Sample.watch_page) Sample.plain_locale ApiVideo
    Sample.known_id []
  = (Answered (Response 500 (PError "Failed to fetch video information")),
     ["https://lekker.gay/watch?v=dQw4w9WgXcQ"]).
Proof. vm_compute. reflexivity. Qed.

Lemma instance_and_port_from_environment_witness :
  RevB.INVIDIOUS_INSTANCE Sample.other_env = "https://inv.example"
  /\ snd (express_app B Sample.other_env (Sample.html "<html></html>")
            (Sample.parse Sample.watch_page) Sample.plain_locale ApiPopular
            Sample.lofi [])
     = ["https://inv.example/feed/popular"]
  /\ (In "https://inv.example/feed/popular" []
      \/ startsWith "https://inv.example/feed/popular"
           (RevB.INVIDIOUS_INSTANCE Sample.other_env) = true).
Proof.
  split; [reflexivity |]. split; [reflexivity |].
  apply (proj2 (proj2 (instance_and_port_from_environment Sample.other_env))
           B (Sample.html "<html></html>") (Sample.parse Sample.watch_page)
           Sample.plain_locale ApiPopular Sample.lofi []).
  left. reflexivity.
Defined.

(** X20.  Revision B takes the origin from the environment and falls back to the
    fixed one when the variable is unset or empty. *)
Lemma revB_origin_from_environment (e : env) :
  RevB.INVIDIOUS_INSTANCE e
  = match e "INVIDIOUS_INSTANCE" with
    | Some s => if s =? "" then "https://lekker.gay" else s
    | None => "https://lekker.gay"
    end.
Proof.
  unfold RevB.INVIDIOUS_INSTANCE, env_get, or_else.
  destruct (e "INVIDIOUS_INSTANCE") as [s|]; [| reflexivity].
  cbn [truthy]. now destruct (s =? "").
Qed.

(** ** The string methods, further *)

Lemma startsWith_split (s p : string) :
  startsWith s p = true -> s = p ++ drop (String.length p) s.
Proof.
  revert s. induction p as [|c p IH]; intros s H.
  - reflexivity.
  - destruct s as [|d s]; [discriminate H |]. cbn [startsWith] in H.
    apply andb_true_iff in H as [Hc Hs]. apply Ascii.eqb_eq in Hc. subst d.
    cbn [String.length drop append]. f_equal. now apply IH.
Qed.

Lemma startsWith_app_l (a b p : string) :
  startsWith a p = true -> startsWith (a ++ b) p = true.
Proof.
  revert a. induction p as [|c p IH]; intros a H.
  - reflexivity.
  - destruct a as [|d a]; [discriminate H |]. cbn [startsWith append] in *.
    apply andb_true_iff in H as [Hc Hs]. rewrite Hc. now apply IH.
Qed.

Lemma append_inv_head (a x y : string) : a ++ x = a ++ y -> x = y.
Proof.
  induction a as [|c a IH]; cbn [append]; intros H.
  - exact H.
  - injection H as H. now apply IH.
Qed.

(** *** Trimming *)

Lemma strip_ws_some (s r : string) :
  strip_ws s = Some r -> exists w, s = w ++ r /\ white_space w = true.
Proof.
  unfold strip_ws.
  destruct s as [|c1 [|c2 [|c3 r3]]];
    repeat match goal with
           | |- context [if ?b then _ else _] => destruct b eqn:?
           end; intros [= <-];
    match goal with
    | H : white_space ?w = true |- _ => exists w; split; [reflexivity | exact H]
    end.
Qed.

Lemma strip_ws_none (s w rest : string) :
  strip_ws s = None -> s = w ++ rest -> white_space w = false.
Proof.
  intros Hn ->. destruct (white_space w) eqn:E; [exfalso | reflexivity].
  destruct w as [|c1 [|c2 [|c3 [|c4 w]]]]; try discriminate E;
    unfold strip_ws in Hn; cbn [append] in Hn;
    repeat match type of Hn with
           | context [if ?b then _ else _] => destruct b eqn:?
           end; try discriminate Hn; try congruence;
    destruct rest; try discriminate Hn; 
    repeat match type of Hn with
           | context [if ?b then _ else _] => destruct b eqn:?
           end; try discriminate Hn; congruence.
Qed.

Lemma strip_ws_shorter (s r : string) :
  strip_ws s = Some r -> String.length r < String.length s.
Proof.
  unfold strip_ws.
  destruct s as [|c1 [|c2 [|c3 r3]]];
    repeat match goal with
           | |- context [if ?b then _ else _] => destruct b
           end; intros [= <-]; cbn [String.length]; lia.
Qed.

Lemma trimStart_steps_done (n : nat) (s : string) :
  String.length s <= n -> strip_ws (trimStart_steps n s) = None.
Proof.
  revert s. induction n as [|n IH]; intros s H.
  - destruct s; [reflexivity | cbn [String.length] in H; lia].
  - cbn [trimStart_steps]. destruct (strip_ws s) as [r|] eqn:E; [| exact E].
    apply IH. apply strip_ws_shorter in E. lia.
Qed.

Lemma trimEnd_prefix (s : string) : exists z, s = trimEnd s ++ z.
Proof.
  induction s as [|c s [z IH]]; [now exists "" |].
  cbn [trimEnd]. destruct (white_space (String c (trimEnd s))).
  - now exists (String c s).
  - exists z. cbn [append]. now rewrite <- IH.
Qed.

Lemma trimEnd_no_suffix (s front w : string) :
  trimEnd s = front ++ w -> white_space w = false.
Proof.
  revert front. induction s as [|c s IH]; intros front H.
  - destruct front; [cbn [append] in H; now subst w | discriminate H].
  - cbn [trimEnd] in H.
    destruct (white_space (String c (trimEnd s))) eqn:E.
    + destruct front; [cbn [append] in H; now subst w | discriminate H].
    + destruct front as [|a front]; cbn [append] in H.
      * now subst w.
      * injection H as _ H. now apply (IH front).
Qed.

Lemma append_assoc (a b c : string) : (a ++ b) ++ c = a ++ b ++ c.
Proof.
  induction a as [|x a IH]; [reflexivity |]. cbn [append]. now rewrite IH.
Qed.

Lemma trim_trimmed (s : string) : trimmed (trim s).
Proof.
  unfold trim. split.
  - intros w rest H.
    destruct (trimEnd_prefix (trimStart s)) as [z Hz].
    rewrite H, append_assoc in Hz.
    apply (strip_ws_none (trimStart s) w (rest ++ z)); [| exact Hz].
    apply trimStart_steps_done. constructor.
  - intros front w H. now apply (trimEnd_no_suffix _ _ _ H).
Qed.

Lemma trimEnd_fixed (s : string) :
  (forall front w, s = front ++ w -> white_space w = false) -> trimEnd s = s.
Proof.
  induction s as [|c s IH]; intros H; [reflexivity |].
  cbn [trimEnd]. rewrite IH.
  - now rewrite (H "" (String c s) eq_refl).
  - intros front w ->. apply (H (String c front) w). reflexivity.
Qed.

Lemma trim_fixed (s : string) : trimmed s -> trim s = s.
Proof.
  intros [Hf Hl]. unfold trim.
  assert (E : trimStart s = s).
  { unfold trimStart. destruct (String.length s); [reflexivity |].
    cbn [trimStart_steps]. destruct (strip_ws s) as [r|] eqn:Er; [| reflexivity].
    apply strip_ws_some in Er as (w & -> & Hw).
    now rewrite (Hf w r eq_refl) in Hw. }
  rewrite E. now apply trimEnd_fixed.
Qed.

Lemma trimEnd_last (s : string) (c : ascii) :
  last_char (trimEnd s) = Some c -> is_space c = false.
Proof.
  induction s as [|a s IH]; cbn [trimEnd]; [discriminate |].
  destruct (white_space (String a (trimEnd s))) eqn:E; [discriminate |].
  destruct (trimEnd s) as [|b t]; [| exact IH].
  cbn [last_char]. now intros [= <-].
Qed.

(** *** Percent-encoding *)

Lemma hex_code (n : nat) :
  n < 16 -> nat_of_ascii (hex n) = if (n <? 10)%nat then 48 + n else 55 + n.
Proof.
  intros H. unfold hex.
  destruct (n <? 10)%nat; apply nat_ascii_embedding; lia.
Qed.

Lemma hex_unreserved (n : nat) : n < 16 -> unreserved (hex n) = true.
Proof.
  intros H. do 16 (destruct n as [|n]; [reflexivity |]). lia.
Qed.

Lemma hex_inj (m n : nat) : m < 16 -> n < 16 -> hex m = hex n -> m = n.
Proof.
  intros Hm Hn E. apply (f_equal nat_of_ascii) in E.
  rewrite !hex_code in E by assumption.
  destruct (Nat.ltb_spec m 10), (Nat.ltb_spec n 10); lia.
Qed.

Lemma byte_bound (c : ascii) : nat_of_ascii c < 256.
Proof. apply nat_ascii_bounded. Qed.

Lemma percent_reserved : unreserved "%" = false.
Proof. reflexivity. Qed.

Lemma encodeURIComponent_cons (c : ascii) (s : string) :
  encodeURIComponent (String c s)
  = if unreserved c then String c (encodeURIComponent s)
    else String "%" (String (hex (nat_of_ascii c / 16))
           (String (hex (nat_of_ascii c mod 16)) (encodeURIComponent s))).
Proof. reflexivity. Qed.

(** The encoded text holds unreserved characters and percent signs only:
    no [&], [=], [?], [#], [/] or space survives. *)
Lemma encodeURIComponent_safe (s : string) :
  all_chars url_safe (encodeURIComponent s) = true.
Proof.
  induction s as [|c s IH]; [reflexivity |].
  rewrite encodeURIComponent_cons.
  pose proof (byte_bound c) as Hc.
  destruct (unreserved c) eqn:E; cbn [all_chars]; unfold url_safe at 1.
  - now rewrite E, IH.
  - unfold url_safe at 1 2.
    rewrite !hex_unreserved, IH; [reflexivity | |].
    + apply Nat.mod_upper_bound. lia.
    + apply Nat.Div0.div_lt_upper_bound. lia.
Qed.

Lemma encodeURIComponent_inj (s t : string) :
  encodeURIComponent s = encodeURIComponent t -> s = t.
Proof.
  revert t. induction s as [|c s IH]; intros [|d t] H.
  - reflexivity.
  - rewrite encodeURIComponent_cons in H.
    destruct (unreserved d); discriminate H.
  - rewrite encodeURIComponent_cons in H.
    destruct (unreserved c); discriminate H.
  - rewrite !encodeURIComponent_cons in H.
    pose proof (byte_bound c) as Hc. pose proof (byte_bound d) as Hd.
    destruct (unreserved c) eqn:Ec, (unreserved d) eqn:Ed.
    + injection H as -> H. f_equal. now apply IH.
    + injection H as -> _. rewrite percent_reserved in Ec. discriminate Ec.
    + injection H as <- _. rewrite percent_reserved in Ed. discriminate Ed.
    + assert (Hq1 : nat_of_ascii c / 16 < 16)
        by (apply Nat.Div0.div_lt_upper_bound; lia).
      assert (Hq2 : nat_of_ascii d / 16 < 16)
        by (apply Nat.Div0.div_lt_upper_bound; lia).
      assert (Hr1 : nat_of_ascii c mod 16 < 16)
        by (apply Nat.mod_upper_bound; lia).
      assert (Hr2 : nat_of_ascii d mod 16 < 16)
        by (apply Nat.mod_upper_bound; lia).
      pose proof (Nat.div_mod_eq (nat_of_ascii c) 16) as Dc.
      pose proof (Nat.div_mod_eq (nat_of_ascii d) 16) as Dd.
      remember (nat_of_ascii c / 16) as q1. remember (nat_of_ascii c mod 16) as r1.
      remember (nat_of_ascii d / 16) as q2. remember (nat_of_ascii d mod 16) as r2.
      injection H as H1 H2 H.
      apply hex_inj in H1; [| assumption | assumption].
      apply hex_inj in H2; [| assumption | assumption].
      assert (E : nat_of_ascii c = nat_of_ascii d) by lia.
      f_equal; [| now apply IH].
      rewrite <- (ascii_nat_embedding c), <- (ascii_nat_embedding d).
      now rewrite E.
Qed.

Lemma encodeURIComponent_unreserved (s : string) :
  all_chars unreserved s = true -> encodeURIComponent s = s.
Proof.
  induction s as [|c s IH]; [reflexivity |].
  cbn [all_chars]. intros H. apply andb_true_iff in H as [Hc Hs].
  rewrite encodeURIComponent_cons, Hc. f_equal. now apply IH.
Qed.

(** *** Splitting *)

Lemma split_aux_no_separator (fuel : nat) (sep cur s : string) :
  includes s sep = false -> split_aux fuel sep cur s = [cur ++ s].
Proof.
  revert cur s. induction fuel as [|fuel IH]; intros cur s H; [reflexivity |].
  destruct s as [|c s].
  - cbn [split_aux]. f_equal. clear. induction cur as [|a cur IH];
      [reflexivity | cbn [append]; now rewrite <- IH].
  - cbn [includes] in H. apply orb_false_iff in H as [H1 H2].
    cbn [split_aux]. rewrite H1. rewrite IH by assumption.
    f_equal. clear. induction cur as [|a cur IH];
      [reflexivity | cbn [append]; now rewrite IH].
Qed.

Lemma split_aux_char (fuel : nat) (sep cur : string) (c : ascii) (s : string) :
  startsWith (String c s) sep = false ->
  split_aux (S fuel) sep cur (String c s)
  = split_aux fuel sep (cur ++ String c "") s.
Proof.
  intros H. cbn [split_aux]. now rewrite H.
Qed.

Lemma split_aux_separator (fuel : nat) (sep cur : string) (c : ascii)
    (s : string) :
  startsWith (String c s) sep = true ->
  split_aux (S fuel) sep cur (String c s)
  = cur :: split_aux fuel sep "" (drop (String.length sep) (String c s)).
Proof.
  intros H. cbn [split_aux]. now rewrite H.
Qed.

Lemma split_no_separator (s sep : string) :
  includes s sep = false -> split s sep = [s].
Proof.
  intros H. unfold split. now rewrite split_aux_no_separator.
Qed.

(** X6.  The videoId expression [href?.split('v=')[1]] of lines 51, 265 and
    299: on the href of a watch page it yields what follows [v=], the
    empty id included. *)
Lemma split_v1_watch (id : string) :
  includes id "v=" = false ->
  split_v1 (JStr ("/watch?v=" ++ id)) = Ok (JStr id).
Proof.
  intros H. unfold split_v1, split.
  cbn [append String.length].
  do 7 (rewrite split_aux_char by reflexivity).
  rewrite split_aux_separator by reflexivity.
  cbn [String.length drop append]. now rewrite split_aux_no_separator.
Qed.

(** X7.  An href without [v=], like a missing href, yields [undefined], which
    the [if (!videoId) return] of the callback skips. *)
Lemma split_v1_no_marker (href : value) :
  match href with
  | JStr s => includes s "v=" = false
  | JUndef | JNull => True
  | _ => False
  end ->
  split_v1 href = Ok JUndef /\ truthy JUndef = false.
Proof.
  destruct href as [| | | |s| |]; intros H; try contradiction;
    split; try reflexivity.
  unfold split_v1. now rewrite split_no_separator.
Qed.

(** ** The helpers given the query function *)

(** X1.  [getText], lines 19-22 and 233-236: called with the query function it
    never throws, it returns [null] exactly when nothing matches, and the
    text it returns otherwise has no white space at either end. *)
Theorem getText_with_query (d : document) (x : selector) :
  exists v,
    getText (Api d) x = Ok v
    /\ (v = JNull <-> select d x = [])
    /\ (forall t, v = JStr t -> trimmed t /\ trim t = t).
Proof.
  unfold getText, call. cbn [rbind].
  destruct (select d x) as [|n rest] eqn:E; cbn [length Nat.eqb negb].
  - exists JNull. repeat split; try reflexivity; discriminate.
  - eexists. split; [reflexivity |]. split; [split; discriminate |].
    intros t [= <-]. split; [apply trim_trimmed |].
    apply trim_fixed, trim_trimmed.
Qed.

(** X2.  Lines 150-152 and 335-337: a text that [getText] returned and that
    contains Download leaves a non-empty format label once the first
    [Download ] is cut out of it. *)
Theorem download_label_nonempty (d : document) (x : selector) (t : string) :
  getText (Api d) x = Ok (JStr t) ->
  includes t "Download" = true ->
  replace t "Download " "" <> "".
Proof.
  intros Ht Hinc.
  assert (Hlast : forall c, last_char t = Some c -> is_space c = false).
  { unfold getText, call in Ht. cbn [rbind] in Ht.
    destruct (negb (length (select d x) =? 0)%nat); [| discriminate Ht].
    injection Ht as <-. intros c. apply trimEnd_last. }
  destruct t as [|c t]; [discriminate Hinc |].
  unfold replace; fold replace.
  destruct (startsWith (String c t) "Download ") eqn:Hs.
  - apply startsWith_split in Hs. cbn [append].
    intros Hd. rewrite Hd in Hs. rewrite Hs in Hlast.
    specialize (Hlast " "%char eq_refl). discriminate Hlast.
  - discriminate.
Qed.

(** ** [getAbsoluteUrl], further *)

Lemma is_http_app (a b : string) : is_http a = true -> is_http (a ++ b) = true.
Proof.
  unfold is_http. intros H. apply orb_true_iff in H as [H | H];
    apply (startsWith_app_l _ b) in H; rewrite H;
    [reflexivity | apply orb_true_r].
Qed.

(** What [getAbsoluteUrl] returns is [null] or a non-empty string. *)
Lemma getAbsoluteUrl_shape (origin : string) (v u : value) :
  getAbsoluteUrl origin v = Ok u ->
  u = JNull \/ exists s, u = JStr s /\ s <> "".
Proof.
  unfold getAbsoluteUrl. destruct (truthy v) eqn:Hv; cbn [negb].
  - destruct v as [| | | |p| |]; try discriminate.
    apply truthy_JStr in Hv.
    destruct (startsWith p "http://" || startsWith p "https://");
      destruct (startsWith p "/");
      intros [= <-]; right; eexists; (split; [reflexivity |]);
      try exact Hv; destruct origin; cbn [append];
      (discriminate || exact Hv).
  - intros [= <-]. now left.
Qed.

Lemma getAbsoluteUrl_accepts_strings (origin s : string) :
  exists u, getAbsoluteUrl origin (JStr s) = Ok u.
Proof.
  unfold getAbsoluteUrl.
  destruct (negb (truthy (JStr s))); [now eexists |].
  destruct (startsWith s "http://" || startsWith s "https://"); now eexists.
Qed.

(** X4.  Lines 31-38: with an origin that itself starts with [http://] or
    [https://], [getAbsoluteUrl] is idempotent on every input it accepts,
    relative paths and falsy values included. *)
Theorem getAbsoluteUrl_idempotent (origin : string) (v u : value) :
  is_http origin = true ->
  getAbsoluteUrl origin v = Ok u ->
  getAbsoluteUrl origin u = Ok u.
Proof.
  intros Ho. unfold getAbsoluteUrl at 1.
  destruct (truthy v) eqn:Hv; cbn [negb].
  - destruct v as [| | | |p| |]; try discriminate.
    destruct (startsWith p "http://" || startsWith p "https://") eqn:Hp;
      intros [= <-]; apply getAbsoluteUrl_http.
    + exact Hp.
    + now apply is_http_app.
  - intros [= <-]. reflexivity.
Qed.

(** X5.  Lines 31-38: [getAbsoluteUrl] throws exactly on a truthy value that is
    not a string (a non-zero number, [true], an array, an object). *)
Theorem getAbsoluteUrl_throws_iff (origin : string) (v : value) :
  (exists e, getAbsoluteUrl origin v = Throw e)
  <-> truthy v = true /\ is_string v = false.
Proof.
  unfold getAbsoluteUrl. split.
  - intros [e H]. destruct (truthy v) eqn:Hv; cbn [negb] in H;
      [| discriminate H].
    split; [reflexivity |].
    destruct v as [| | | |p| |]; try reflexivity.
    destruct (startsWith p "http://" || startsWith p "https://");
      discriminate H.
  - intros [Hv Hs]. rewrite Hv. cbn [negb].
    destruct v; try discriminate; eexists; reflexivity.
Qed.

(** X3.  Lines 25-28 with 31-38: an attribute that [getAttr] read by name
    through the query function is [null], [undefined] or a string, so
    [getAbsoluteUrl] accepts it and answers [null] or a non-empty
    string. *)
Theorem getAttr_then_getAbsoluteUrl (origin : string) (d : document)
    (x : selector) (name : string) :
  exists v u,
    getAttr (Api d) x (Some name) = Ok v
    /\ getAbsoluteUrl origin v = Ok u
    /\ (v = JNull <-> select d x = [])
    /\ (u = JNull \/ exists s, u = JStr s /\ s <> "").
Proof.
  unfold getAttr, call. cbn [rbind].
  destruct (select d x) as [|n rest] eqn:E; cbn [length Nat.eqb negb].
  - exists JNull, JNull. repeat split; try reflexivity; try discriminate.
    now left.
  - cbn [Cheerio.attr].
    destruct (List.find _ (node_attribs n)) as [[k a]|].
    + destruct (getAbsoluteUrl_accepts_strings origin a) as [u Hu].
      exists (JStr a), u. repeat split; try assumption; try discriminate.
      now apply getAbsoluteUrl_shape in Hu.
    + exists JUndef, JNull. repeat split; try reflexivity; try discriminate.
      now left.
Qed.

(** ** The structured search extraction, further *)

Lemma getAbsoluteUrl_returns_inv (origin : string) (v u : value) :
  getAbsoluteUrl origin v = Ok u ->
  match v with
  | JStr _ => true
  | w => negb (truthy w)
  end = true.
Proof.
  unfold getAbsoluteUrl.
  destruct v as [| |b|z|p|l|kvs]; try reflexivity; cbn [truthy negb].
  - destruct b; [discriminate | reflexivity].
  - destruct (negb (num_falsy z)); [discriminate | reflexivity].
  - discriminate.
  - discriminate.
Qed.

Lemma search_item_returns_inv (origin : string) (tls : value -> result string)
    (item : value) (r : option VideoSummary) :
  search_item origin tls item = Ok r -> item_ok tls item = true.
Proof.
  intros H.
  assert (H1 : item <> JUndef) by (intros ->; discriminate H).
  assert (H2 : item <> JNull) by (intros ->; discriminate H).
  assert (G : (if is_video_item item then
                 (match thumbnail_source item with
                  | JStr _ => true
                  | v => negb (truthy v)
                  end)
                 && (if truthy (opt_get item "viewCount")
                     then returns (tls (opt_get item "viewCount"))
                     else true)
                 && returns (toString (opt_get item "videoId"))
               else true) = true).
  { unfold search_item in H. rewrite !get_not_null in H by assumption.
    cbn [rbind] in H. fold (is_video_item item) in H.
    destruct (is_video_item item); [| reflexivity].
    fold (thumbnail_source item) in H.
    destruct (getAbsoluteUrl origin (thumbnail_source item)) as [u|e] eqn:Hu;
      [| discriminate H].
    apply getAbsoluteUrl_returns_inv in Hu. cbn [rbind] in H.
    assert (Hv : (if truthy (opt_get item "viewCount")
                  then returns (tls (opt_get item "viewCount"))
                  else true) = true
                 /\ returns (toString (opt_get item "videoId")) = true).
    { destruct (truthy (opt_get item "viewCount")).
      - destruct (tls (opt_get item "viewCount")); [| discriminate H].
        cbn [rbind] in H. split; [reflexivity |].
        destruct (toString (opt_get item "videoId"));
          [reflexivity | discriminate H].
      - cbn [rbind] in H. split; [reflexivity |].
        destruct (toString (opt_get item "videoId"));
          [reflexivity | discriminate H]. }
    destruct Hv as [Hv Hid]. rewrite Hv, Hid.
    rewrite !andb_true_r. destruct (thumbnail_source item); exact Hu. }
  unfold item_ok. destruct item; try congruence; exact G.
Qed.

Lemma map_result_returns_inv {X Y} (f : X -> result Y) (l : list X)
    (out : list Y) :
  map_result f l = Ok out -> Forall (fun x => exists y, f x = Ok y) l.
Proof.
  revert out. induction l as [|x l IH]; intros out H; [constructor |].
  cbn [map_result] in H.
  destruct (f x) as [y|e] eqn:Hy; [| discriminate H]. cbn [rbind] in H.
  destruct (map_result f l) as [ys|e] eqn:Hys; [| discriminate H].
  constructor; [now exists y | now apply (IH ys)].
Qed.

(** X8.  Lines 101-117: the extraction returns exactly when the data is an
    array and every item of it can be read.  One [null] item, or one item
    of type ['video'] with a truthy thumbnail source that is not a string,
    a view count that cannot be formatted or a videoId that cannot be
    printed, makes the whole extraction throw: there is no partial
    result. *)
Theorem searchResults_returns_iff (origin : string)
    (tls : value -> result string) (data : value) :
  (exists out, searchResults origin tls data = Ok out)
  <-> exists items,
        data = JArr items /\ Forall (fun item => item_ok tls item = true) items.
Proof.
  split.
  - intros [out H]. destruct data as [| | | | |items|]; try discriminate H.
    exists items. split; [reflexivity |].
    unfold searchResults in H.
    destruct (map_result (search_item origin tls) items) as [mapped|e] eqn:Em;
      [| discriminate H].
    apply map_result_returns_inv in Em.
    eapply Forall_impl; [| exact Em].
    intros item [r Hr]. now apply search_item_returns_inv in Hr.
  - intros (items & -> & H). now apply searchResults_total.
Qed.

Lemma Forall2_Forall_r {X Y} (R : X -> Y -> Prop) (P : Y -> Prop)
    (l : list X) (l' : list Y) :
  (forall x y, R x y -> P y) -> Forall2 R l l' -> Forall P l'.
Proof.
  intros HR H. induction H; constructor; eauto.
Qed.

(** X9.  Lines 104-113: in every summary the extraction returns, the thumbnail
    is [null] or a non-empty string, the views are [null] or a text that
    ends in [ views], and the url is the origin followed by [/watch?v=]
    and the text the videoId prints as, which exists. *)
Theorem searchResults_field_shapes (origin : string)
    (tls : value -> result string) (items : list value)
    (out : list VideoSummary) :
  searchResults origin tls (JArr items) = Ok out ->
  Forall (fun s =>
            (thumbnail s = JNull \/ exists t, thumbnail s = JStr t /\ t <> "")
            /\ (views s = JNull \/ exists n, views s = JStr (n ++ " views"))
            /\ exists printed,
                 toString (videoId s) = Ok printed
                 /\ url s = JStr (origin ++ "/watch?v=" ++ printed))
         out.
Proof.
  intros H. apply searchResults_sound in H.
  eapply Forall2_Forall_r; [| exact H].
  intros item s (_ & Hid & Hth & _ & Hv & _ & Hu). cbv beta.
  split; [now apply getAbsoluteUrl_shape in Hth |]. split.
  - destruct (truthy (opt_get item "viewCount")); [| now left].
    destruct Hv as (n & _ & Hn). right. now exists n.
  - now rewrite Hid.
Qed.

(** ** The URL of an upstream request *)

(** X10.  Lines 45, 93, 142, 185, 259, 293, 327 and 370: the URL is the origin,
    the fixed path of the route and the caller's text percent-encoded, and
    the encoded text holds unreserved characters and percent signs only,
    so the caller cannot add a path segment, a parameter or a fragment. *)
Theorem target_is_safe (origin : string) (rev : revision) (r : route)
    (req : request) :
  r <> Health ->
  exists enc,
    target origin rev r req = origin ++ route_path rev r ++ enc
    /\ all_chars url_safe enc = true
    /\ enc = match route_param r req with
             | Some text => encodeURIComponent text
             | None => ""
             end.
Proof.
  intros Hr. eexists. split; [| split; [| reflexivity]].
  - destruct r, rev; try congruence; reflexivity.
  - destruct (route_param r req); [apply encodeURIComponent_safe | reflexivity].
Qed.

(** X11.  Two requests to one parameterised route are sent to the same URL only
    when the caller's texts are the same. *)
Theorem target_injective (origin : string) (rev : revision) (r : route)
    (req1 req2 : request) :
  route_param r req1 <> None ->
  target origin rev r req1 = target origin rev r req2 ->
  route_param r req1 = route_param r req2.
Proof.
  intros Hp H.
  destruct r, rev; cbn [route_param] in *; try congruence;
    cbn [target] in H; apply append_inv_head in H;
    match type of H with
    | ?p ++ _ = _ => apply (append_inv_head p) in H
    end; apply encodeURIComponent_inj in H; now rewrite H.
Qed.

(** X12.  A video id made of letters, digits, [-] and [_] (and the other
    unreserved marks) is requested as it is. *)
Theorem target_plain_id (origin : string) (rev : revision) (req : request) :
  all_chars unreserved (params_videoId req) = true ->
  target origin rev ApiVideo req = origin ++ "/watch?v=" ++ params_videoId req
  /\ target origin rev ApiComments req
     = origin ++ "/comments/" ++ params_videoId req.
Proof.
  intros H. cbn [target]. now rewrite encodeURIComponent_unreserved.
Qed.

(** ** Configuration and the host of every request *)

(** X18.  Lines 8 and 224: the origin of revision B and the port are never
    empty, whatever the environment holds: an empty variable counts as
    unset. *)
Theorem configuration_never_empty (e : env) :
  RevB.INVIDIOUS_INSTANCE e <> "" /\ truthy (PORT e) = true.
Proof.
  split.
  - unfold RevB.INVIDIOUS_INSTANCE, env_get, or_else.
    destruct (e "INVIDIOUS_INSTANCE") as [s|]; [| discriminate].
    cbn [truthy]. destruct (String.eqb_spec s ""); cbn [negb toString];
      [discriminate | assumption].
  - unfold PORT, env_get, or_else.
    destruct (e "PORT") as [s|]; [| reflexivity].
    destruct (truthy (JStr s)) eqn:E; [exact E | reflexivity].
Qed.

(** X19.  Lines 45, 93, 142, 185 and their copies in revision B: whatever the
    request, a handler asks no host but the instance it was started
    with. *)
Theorem requests_stay_on_instance (rev : revision) (e : env)
    (upstream : string -> reply) (load : value -> result document)
    (tls : value -> result string) (r : route) (req : request)
    (log : list string) (url : string) :
  In url (snd (express_app rev e upstream load tls r req log)) ->
  In url log
  \/ startsWith url (match rev with
                     | A => "https://lekker.gay"
                     | B => RevB.INVIDIOUS_INSTANCE e
                     end) = true.
Proof.
  unfold express_app.
  destruct rev; cbn [load_module snd]; [now left |].
  destruct (routed r req); [| now left].
  destruct (handler _ _ _ _ _ _ _ _) as [[resp|x] log'] eqn:Hh;
    cbn [snd]; intros H;
    apply (handler_requests_on_origin (RevB.INVIDIOUS_INSTANCE e) upstream
             load tls B r req log); now rewrite Hh.
Qed.

(** ** The further properties at concrete inputs *)

Lemma download_label_nonempty_witness :
  getText (Api Sample.watch_page) (SelStr "a.pure-button.pure-button-primary")
  = Ok (JStr "Download 720p")
  /\ includes "Download 720p" "Download" = true
  /\ replace "Download 720p" "Download " "" <> "".
Proof.
  split; [reflexivity |]. split; [reflexivity |].
  apply (download_label_nonempty Sample.watch_page
           (SelStr "a.pure-button.pure-button-primary"));
    reflexivity.
Defined.

Lemma getAbsoluteUrl_idempotent_witness :
  is_http "https://lekker.gay" = true
  /\ getAbsoluteUrl "https://lekker.gay" (JStr "vi/abc/1.jpg")
     = Ok (JStr "https://lekker.gay/vi/abc/1.jpg")
  /\ getAbsoluteUrl "https://lekker.gay" (JStr "https://lekker.gay/vi/abc/1.jpg")
     = Ok (JStr "https://lekker.gay/vi/abc/1.jpg").
Proof.
  split; [reflexivity |]. split; [reflexivity |].
  apply (getAbsoluteUrl_idempotent "https://lekker.gay" (JStr "vi/abc/1.jpg"));
    reflexivity.
Defined.

Lemma split_v1_watch_witness :
  includes "abc&t=10" "v=" = false
  /\ split_v1 (JStr ("/watch?v=" ++ "abc&t=10")) = Ok (JStr "abc&t=10").
Proof.
  split; [reflexivity |]. apply split_v1_watch. reflexivity.
Defined.

Lemma split_v1_no_marker_witness :
  includes "/channel/UCabc" "v=" = false
  /\ split_v1 (JStr "/channel/UCabc") = Ok JUndef /\ truthy JUndef = false.
Proof.
  split; [reflexivity |].
  apply (split_v1_no_marker (JStr "/channel/UCabc")). reflexivity.
Defined.

Lemma searchResults_field_shapes_witness :
  exists out,
    searchResults "https://lekker.gay" Sample.plain_locale
      (JArr [Sample.video_item; Sample.anonymous_item;
             JObj [("type", JStr "video");
                   ("videoId", JNum (Number false "1e+21"))]]) = Ok out
    /\ length out = 3
    /\ Forall (fun s =>
                 (thumbnail s = JNull
                  \/ exists t, thumbnail s = JStr t /\ t <> "")
                 /\ (views s = JNull
                     \/ exists n, views s = JStr (n ++ " views"))
                 /\ exists printed,
                      toString (videoId s) = Ok printed
                      /\ url s = JStr ("https://lekker.gay" ++ "/watch?v="
                                       ++ printed))
              out.
Proof.
  eexists. split; [vm_compute; reflexivity |]. split; [reflexivity |].
  apply (searchResults_field_shapes "https://lekker.gay" Sample.plain_locale
           [Sample.video_item; Sample.anonymous_item;
            JObj [("type", JStr "video");
                  ("videoId", JNum (Number false "1e+21"))]]).
  vm_compute. reflexivity.
Defined.

Lemma target_is_safe_witness :
  ApiSearch <> Health
  /\ exists enc,
       target "https://lekker.gay" A ApiSearch
         (Request (JStr "lo fi&page=2") "")
       = "https://lekker.gay" ++ route_path A ApiSearch ++ enc
       /\ all_chars url_safe enc = true
       /\ enc = match route_param ApiSearch (Request (JStr "lo fi&page=2") "") with
                | Some text => encodeURIComponent text
                | None => ""
                end.
Proof.
  assert (H : ApiSearch <> Health) by discriminate.
  split; [exact H |].
  exact (target_is_safe "https://lekker.gay" A ApiSearch
           (Request (JStr "lo fi&page=2") "") H).
Defined.

Lemma target_injective_witness :
  route_param ApiVideo (Request (JStr "lofi") "abc") <> None
  /\ target "https://lekker.gay" B ApiVideo (Request (JStr "lofi") "abc")
     = target "https://lekker.gay" B ApiVideo (Request JUndef "abc")
  /\ route_param ApiVideo (Request (JStr "lofi") "abc")
     = route_param ApiVideo (Request JUndef "abc").
Proof.
  assert (H : route_param ApiVideo (Request (JStr "lofi") "abc") <> None)
    by discriminate.
  split; [exact H |]. split; [reflexivity |].
  exact (target_injective "https://lekker.gay" B ApiVideo
           (Request (JStr "lofi") "abc") (Request JUndef "abc") H eq_refl).
Defined.

Lemma target_plain_id_witness :
  all_chars unreserved (params_videoId Sample.known_id) = true
  /\ target "https://lekker.gay" B ApiVideo Sample.known_id
     = "https://lekker.gay" ++ "/watch?v=" ++ params_videoId Sample.known_id
  /\ target "https://lekker.gay" B ApiComments Sample.known_id
     = "https://lekker.gay" ++ "/comments/" ++ params_videoId Sample.known_id.
Proof.
  split; [reflexivity |].
  apply (target_plain_id "https://lekker.gay" B Sample.known_id). reflexivity.
Defined.

Lemma markup_list_answers_witness :
  attempt "https://lekker.gay" (Sample.html "<html>...</html>")
    (Sample.parse Page.feed) Sample.plain_locale B ApiPopular Sample.lofi
  <> None
  /\ scraped_items B ApiPopular Page.feed = Some [Page.item]
  /\ handler "https://lekker.gay" (Sample.html "<html>...</html>")
       (Sample.parse Page.feed) Sample.plain_locale B ApiPopular Sample.lofi []
     = (Ok (Response 500 (PError (failure_message B ApiPopular))),
        ([] ++ [target "https://lekker.gay" B ApiPopular Sample.lofi])%list).
Proof.
  split; [discriminate |]. split; [reflexivity |].
  apply (markup_list_answers "https://lekker.gay"
           (Sample.html "<html>...</html>") (Sample.parse Page.feed)
           Sample.plain_locale B ApiPopular Sample.lofi []
           (JStr "<html>...</html>") Page.feed [Page.item]);
    [discriminate | reflexivity | reflexivity | reflexivity].
Defined.

Lemma video_answers_500_witness :
  params_videoId Sample.known_id <> ""
  /\ handler "https://lekker.gay" (Sample.html "<html>...</html>")
       (Sample.parse Sample.watch_page) Sample.plain_locale A ApiVideo
       Sample.known_id []
     = (Ok (Response 500 (PError "Failed to fetch video information")),
        ([] ++ [target "https://lekker.gay" A ApiVideo Sample.known_id])%list).
Proof.
  assert (H : params_videoId Sample.known_id <> "") by discriminate.
  split; [exact H |].
  exact (video_answers_500 "https://lekker.gay" (Sample.html "<html>...</html>")
           (Sample.parse Sample.watch_page) Sample.plain_locale A
           Sample.known_id [] H).
Defined.


Lemma requests_stay_on_instance_witness :
  In "https://inv.example/watch?v=dQw4w9WgXcQ"
     (snd (express_app B Sample.other_env (Sample.html "<html>...</html>")
             (Sample.parse Sample.watch_page) Sample.plain_locale ApiVideo
             Sample.known_id []))
  /\ (In "https://inv.example/watch?v=dQw4w9WgXcQ" []
      \/ startsWith "https://inv.example/watch?v=dQw4w9WgXcQ"
           (RevB.INVIDIOUS_INSTANCE Sample.other_env) = true).
Proof.
  assert (H : In "https://inv.example/watch?v=dQw4w9WgXcQ"
                (snd (express_app B Sample.other_env
                        (Sample.html "<html>...</html>")
                        (Sample.parse Sample.watch_page) Sample.plain_locale
                        ApiVideo Sample.known_id [])))
    by (left; reflexivity).
  split; [exact H |].
  exact (requests_stay_on_instance B Sample.other_env _ _ _ _ _ _ _ H).
Defined.
